(** * Chart download and caching (pkg/helm/download.go)

    A shallow embedding of the chart acquisition code of the captain
    controller: parsing of [<repo>/<chart>] names, the repository flow
    ([downloadChart]), the HTTP-source flow ([downloadChartFromHTTP]),
    the OCI flow ([pullOCIChart]), the byte transfer ([downloadFile])
    and credential resolution ([fetchAuthFromSecret]).

    The earlier variant of the file that the repository also holds is
    embedded in [Legacy], the collaborators outside the package
    (metadata store, secret store, HTTP transport, registry client,
    operating system) are the fields of [World].

    Go strings are byte sequences and are modelled by [string]; the
    local disk, the process-wide repository cache and the log of calls
    that leave the process are threaded as explicit state.  A Go panic
    is an outcome of its own. *)

From Stdlib Require Import ZArith Ascii String List.
From stdpp Require Import base option gmap strings list fin_maps.

Local Open Scope string_scope.
Local Open Scope Z_scope.

(** ** The [strings] package, as far as the source uses it *)

Module strings.

Definition slash : ascii := "/"%char.
Definition newline : ascii := "010"%char.

(** [strings.Split(s, sep)] for a one-byte separator: the source only
    ever splits on ["/"].  The result is never empty: a string without
    the separator is returned as its only segment. *)
Fixpoint Split (s : string) (sep : ascii) : list string :=
  match s with
  | EmptyString => [EmptyString]
  | String a rest =>
      if Ascii.eqb a sep then EmptyString :: Split rest sep
      else match Split rest sep with
           | [] => [String a EmptyString]
           | seg :: segs => String a seg :: segs
           end
  end.

(** [strings.HasPrefix(s, prefix)]. *)
Fixpoint HasPrefix (s prefix : string) : bool :=
  match prefix, s with
  | EmptyString, _ => true
  | String _ _, EmptyString => false
  | String p prefix', String a s' => Ascii.eqb a p && HasPrefix s' prefix'
  end.

Definition rev (s : string) : string :=
  string_of_list_ascii (List.rev (list_ascii_of_string s)).

(** [strings.HasSuffix(s, suffix)]. *)
Definition HasSuffix (s suffix : string) : bool :=
  HasPrefix (rev s) (rev suffix).

(** [strings.TrimLeft(s, cutset)] for a one-byte cutset. *)
Fixpoint TrimLeft (s : string) (c : ascii) : string :=
  match s with
  | EmptyString => EmptyString
  | String a rest => if Ascii.eqb a c then TrimLeft rest c else s
  end.

(** [strings.TrimRight(s, cutset)] for a one-byte cutset. *)
Definition TrimRight (s : string) (c : ascii) : string :=
  rev (TrimLeft (rev s) c).

(** [strings.Trim(s, cutset)] removes the cutset byte from both ends. *)
Definition Trim (s : string) (c : ascii) : string :=
  TrimRight (TrimLeft s c) c.

(** [strings.ToLower] on the ASCII letters; bytes at or above 128 are
    left as they are. *)
Definition lower_byte (a : ascii) : ascii :=
  let n := nat_of_ascii a in
  if (Nat.leb 65 n && Nat.leb n 90)%bool then ascii_of_nat (n + 32) else a.

Fixpoint ToLower (s : string) : string :=
  match s with
  | EmptyString => EmptyString
  | String a rest => String (lower_byte a) (ToLower rest)
  end.

(** [strings.LastIndex(s, sep)] for a one-byte separator, as the
    suffix after the last occurrence when there is one: [Some t] stands
    for an index [idx] with [s[idx+1:] = t], [None] for [-1]. *)
Fixpoint AfterLast (s : string) (sep : ascii) : option string :=
  match s with
  | EmptyString => None
  | String a rest =>
      match AfterLast rest sep with
      | Some t => Some t
      | None => if Ascii.eqb a sep then Some rest else None
      end
  end.

(** Number of occurrences of a byte, [strings.Count] for a one-byte
    separator. *)
Fixpoint Count (s : string) (sep : ascii) : nat :=
  match s with
  | EmptyString => 0%nat
  | String a rest =>
      if Ascii.eqb a sep then S (Count rest sep) else Count rest sep
  end.

(** [strings.Replace(s, old, new, -1)] for one-byte [old] and [new]:
    every occurrence is replaced. *)
Fixpoint Replace (s : string) (old new : ascii) : string :=
  match s with
  | EmptyString => EmptyString
  | String a rest =>
      String (if Ascii.eqb a old then new else a) (Replace rest old new)
  end.

End strings.

(** ** Parsing a compound chart name *)

(** [getRepoAndChart]: stable/nginx -> stable nginx.  Anything that does
    not split into two segments yields the pair of empty strings. *)
Definition getRepoAndChart (name : string) : string * string :=
  match strings.Split name strings.slash with
  | [r; c] => (r, c)
  | _ => ("", "")
  end.

(** [splitChartNameFromURL]. *)
Definition splitChartNameFromURL (url : string) : string :=
  if (String.length url =? 0)%nat then ""
  else match strings.AfterLast url strings.slash with
       | None => url
       | Some t => t
       end.

Example getRepoAndChart_stable : getRepoAndChart "stable/nginx" = ("stable", "nginx").
Proof. reflexivity. Qed.

Example getRepoAndChart_many : getRepoAndChart "a/b/c" = ("", "").
Proof. reflexivity. Qed.

Example getRepoAndChart_trailing : getRepoAndChart "repo/" = ("repo", "").
Proof. reflexivity. Qed.

Example splitChartNameFromURL_tgz :
  splitChartNameFromURL "https://files.example.com/pkg/app-2.0.tgz" = "app-2.0.tgz".
Proof. reflexivity. Qed.

Example Trim_both : strings.Trim (String strings.newline ("bob" ++ String strings.newline "")) strings.newline = "bob".
Proof. reflexivity. Qed.

(** ** Data model *)

(** Go [error] values.  [errors_New] covers [errors.New] and
    [errors.Errorf] of this package; [StatusError] is an API-server
    status error, which may carry the reason NotFound; [PathError] is
    an error of package os, which may say that the path does not exist;
    [Foreign] stands for the errors of the other collaborators
    (net/http, registry, client construction). *)
Inductive error : Type :=
| errors_New (msg : string)
| StatusError (notFound : bool) (msg : string)
| PathError (notExist : bool) (msg : string)
| Foreign (msg : string).

(** [apierrors.IsNotFound]. *)
Definition apierrors_IsNotFound (err : error) : bool :=
  match err with
  | StatusError true _ => true
  | _ => false
  end.

Record rest_Config : Type := { Host : string }.

Record Downloader : Type :=
  { incfg : rest_Config;
    cfg : rest_Config;
    ns : string (* system ns *) }.

Definition NewDownloader (ns : string) (incfg cfg : rest_Config) : Downloader :=
  {| incfg := incfg; cfg := cfg; ns := ns |}.

(** [repo.Entry], the fields the source reads. *)
Record repo_Entry : Type :=
  { URL : string; Username : string; Password : string }.

(** The chart version returned by [chartrepo.GetChart]. *)
Record ChartVersion : Type :=
  { URLs : list string; Digest : string }.

(** A secret of the secret store: [Data] is [map[string][]byte]. *)
Record Secret : Type := { Data : gmap string string }.

Record ChartSourceHTTP : Type :=
  { HTTP_URL : string; HTTP_SecretRef : string }.

Record ChartSourceOCI : Type :=
  { OCI_Repo : string; OCI_SecretRef : string }.

(** [hr.Spec.Source]; [None] is a nil pointer. *)
Record ChartSource : Type :=
  { HTTP : option ChartSourceHTTP; OCI : option ChartSourceOCI }.

Record HelmRequest : Type :=
  { Name : string; Namespace : string; Spec_Source : option ChartSource }.

Definition GetName (hr : HelmRequest) : string := Name hr.
Definition GetNamespace (hr : HelmRequest) : string := Namespace hr.

(** [http.Request] and [http.Response], the parts the source touches. *)
Record Request : Type :=
  { Method : string; ReqURL : string; BasicAuth : option (string * string) }.

Record Response : Type :=
  { StatusCode : Z;
    Status : string;
    Body : error + list Byte.byte (* what [io.Copy] reads, or its error *) }.

Record Reference : Type := { RefRepo : string; RefTag : string }.

Record chart_Chart : Type := { ChartName : string }.

(** A path of the local disk holds a file or a directory. *)
Inductive Node : Type :=
| File (content : list Byte.byte)
| Dir.

(** Calls made to the collaborators. *)
Inductive Call : Type :=
| MetadataGetChartRepo (name ns : string) (c : rest_Config)
| MetadataGetChart (resource version ns : string) (c : rest_Config)
| SecretGet (c : rest_Config) (namespace name : string)
| HTTPDo (req : Request)
| RegistryPull (ref : Reference) (username password : string)
| RegistryLoad (ref : Reference).

(** The collaborators, fixed for the duration of one resolution: the
    metadata store (package chartrepo), the secret store, the HTTP
    transport, the registry client (package registry) and the faults
    the operating system may report. *)
Record World : Type :=
  { chartrepo_GetChartRepo : string -> string -> rest_Config -> error + repo_Entry;
    chartrepo_GetChart : string -> string -> string -> rest_Config -> error + ChartVersion;
    kubernetes_NewForConfig : rest_Config -> option error;
    secrets_Get : rest_Config -> string -> string -> error + Secret;
    http_NewRequest_err : string -> string -> option error;
    http_RoundTrip : Request -> error + Response;
    registry_NewClient : option error;
    registry_ParseReference : string -> error + Reference;
    registry_PullChart : Reference -> string -> string -> option error;
    registry_LoadChart : Reference -> error + chart_Chart;
    (* a stat that fails for another reason than a missing path *)
    os_stat_fault : string -> option string;
    os_mkdir_fault : string -> option error;
    (* a failed write: the error, and how many bytes reached the file
       when it had been opened (and so truncated) *)
    os_write_fault : string -> option (error * option nat);
    os_remove_fault : string -> bool }.

(** The state a resolution reads and writes: the local disk, the
    unexpired items of [repoCache], and the calls made so far. *)
Record State : Type :=
  { fs : gmap string Node;
    repoCache : gmap string repo_Entry;
    calls : list Call }.

Definition set_fs (f : gmap string Node -> gmap string Node) (s : State) : State :=
  {| fs := f (fs s); repoCache := repoCache s; calls := calls s |}.

Definition set_repoCache (f : gmap string repo_Entry -> gmap string repo_Entry) (s : State) : State :=
  {| fs := fs s; repoCache := f (repoCache s); calls := calls s |}.

Definition record (c : Call) (s : State) : State :=
  {| fs := fs s; repoCache := repoCache s; calls := calls s ++ [c] |}.

(** ** Computations: state passing, with panics *)

Inductive Result (A : Type) : Type :=
| Returns (a : A) (s : State)
| Panics (s : State).
Arguments Returns {A} a s.
Arguments Panics {A} s.

Definition final {A} (r : Result A) : State :=
  match r with
  | Returns _ s => s
  | Panics s => s
  end.

Definition Go (A : Type) : Type := State -> Result A.

#[global] Instance Go_ret : MRet Go := fun A a s => Returns a s.

#[global] Instance Go_bind : MBind Go := fun A B k m s =>
  match m s with
  | Returns a s' => k a s'
  | Panics s' => Panics s'
  end.

Definition panic {A} : Go A := fun s => Panics s.
Definition gets {A} (f : State -> A) : Go A := fun s => Returns (f s) s.
Definition modify (f : State -> State) : Go unit := fun s => Returns tt (f s).
Definition call (c : Call) : Go unit := modify (record c).

Definition nonempty (s : string) : bool := negb (String.eqb s "").

Definition ChartsDir : string := "/tmp/helm-charts".

Section Download.

Context (w : World).

(** *** Package os *)

(** [os.IsNotExist(err)]; [None] is the nil error. *)
Definition os_IsNotExist (err : option error) : bool :=
  match err with
  | Some (PathError true _) => true
  | _ => false
  end.

(** [_, err := os.Stat(p)]. *)
Definition os_Stat (p : string) : Go (option error) :=
  s ← gets fs;
  match os_stat_fault w p with
  | Some msg => mret (Some (PathError false msg))
  | None =>
      match s !! p with
      | Some _ => mret None
      | None => mret (Some (PathError true ("stat " ++ p ++ ": no such file or directory")))
      end
  end.

(** [os.MkdirAll(p, 0755)].  The store is flat: the parents of [p]
    are not tracked one by one. *)
Definition os_MkdirAll (p : string) : Go (option error) :=
  s ← gets fs;
  match s !! p with
  | Some Dir => mret None
  | Some (File _) => mret (Some (PathError false ("mkdir " ++ p ++ ": not a directory")))
  | None =>
      match os_mkdir_fault w p with
      | Some e => mret (Some e)
      | None => modify (set_fs (insert p Dir));; mret None
      end
  end.

(** [os.Remove(p)]. *)
Definition os_Remove (p : string) : Go (option error) :=
  s ← gets fs;
  match s !! p with
  | None => mret (Some (PathError true ("remove " ++ p ++ ": no such file or directory")))
  | Some _ =>
      if os_remove_fault w p
      then mret (Some (PathError false ("remove " ++ p ++ ": operation not permitted")))
      else modify (set_fs (delete p));; mret None
  end.

(** [ioutil.WriteFile(p, data, 0644)]: create or truncate, then write. *)
Definition ioutil_WriteFile (p : string) (data : list Byte.byte) : Go (option error) :=
  s ← gets fs;
  match s !! p with
  | Some Dir => mret (Some (PathError false ("open " ++ p ++ ": is a directory")))
  | _ =>
      match os_write_fault w p with
      | Some (e, None) => mret (Some e)
      | Some (e, Some n) => modify (set_fs (insert p (File (take n data))));; mret (Some e)
      | None => modify (set_fs (insert p (File data)));; mret None
      end
  end.

(** *** Package net/http *)

(** [http.NewRequest(method, url, nil)]: a nil request comes with the
    error. *)
Definition http_NewRequest (method url : string) : option Request * option error :=
  match http_NewRequest_err w method url with
  | Some e => (None, Some e)
  | None => (Some {| Method := method; ReqURL := url; BasicAuth := None |}, None)
  end.

(** [req.SetBasicAuth(username, password)] writes a header of [req]:
    on a nil request it is a nil dereference. *)
Definition SetBasicAuth (req : option Request) (username password : string)
  : Go (option Request) :=
  match req with
  | None => panic
  | Some r =>
      mret (Some {| Method := Method r; ReqURL := ReqURL r;
                    BasicAuth := Some (username, password) |})
  end.

(** [httpClient.Do(req)] reads [req.URL] first: on a nil request it is
    a nil dereference. *)
Definition httpClient_Do (req : option Request) : Go (error + Response) :=
  match req with
  | None => panic
  | Some r => call (HTTPDo r);; mret (http_RoundTrip w r)
  end.

(** *** The package itself *)

(** [downloadFile]. *)
Definition downloadFile (url username password filepath : string) : Go (option error) :=
  let '(req, _) := http_NewRequest "GET" url in
  req ← (if nonempty username && nonempty password
         then SetBasicAuth req username password
         else mret req);
  (* Get the data *)
  r ← httpClient_Do req;
  match r with
  | inl err => mret (Some err)
  | inr resp =>
      if negb (StatusCode resp =? 200)
      then mret (Some (errors_New ("failed to fetch " ++ url ++ " : " ++ Status resp)))
      else
        match Body resp with
        | inl err => mret (Some err)
        | inr buf =>
            err ← ioutil_WriteFile filepath buf;
            match err with
            | Some err => mret (Some err)
            | None => mret None
            end
        end
  end.

(** [downloadFileFromEntry]. *)
Definition downloadFileFromEntry (entry : repo_Entry) (chartPath filepath : string)
  : Go (option error) :=
  let ep := URL entry ++ "/" ++ chartPath in
  let ep := if strings.HasSuffix (URL entry) "/" then URL entry ++ chartPath else ep in
  let ep := if strings.HasPrefix chartPath "http://" || strings.HasPrefix chartPath "https://"
            then chartPath else ep in
  downloadFile ep (Username entry) (Password entry) filepath.

(** [getRepoInfo]: get from cache first, then get from k8s. *)
Definition getRepoInfo (d : Downloader) (name ns : string) : Go (error + repo_Entry) :=
  c ← gets repoCache;
  match c !! name with
  | Some result => mret (inr result)
  | None =>
      call (MetadataGetChartRepo name ns (incfg d));;
      match chartrepo_GetChartRepo w name ns (incfg d) with
      | inr entry => modify (set_repoCache (insert name entry));; mret (inr entry)
      | inl err => mret (inl err)
      end
  end.

(** [downloadChart] downloads a chart from a helm repo to the local disk
    and returns the path.  name: <repo>/<chart>. *)
Definition downloadChart (d : Downloader) (name version : string)
  : Go (string * option error) :=
  let '(repoName, chart) := getRepoAndChart name in
  if String.eqb repoName "" && String.eqb chart ""
  then mret ("", Some (errors_New "cannot parse chart name"))
  else
    let dir := ChartsDir in
    err ← os_Stat dir;
    err ← (if os_IsNotExist err then os_MkdirAll dir else mret None);
    match err with
    | Some err => mret ("", Some err)
    | None =>
        r ← getRepoInfo d repoName (ns d);
        match r with
        | inl err => mret ("", Some err)
        | inr entry =>
            let chartResourceName := strings.ToLower chart ++ "." ++ repoName in
            call (MetadataGetChart chartResourceName version (ns d) (incfg d));;
            match chartrepo_GetChart w chartResourceName version (ns d) (incfg d) with
            | inl err => mret ("", Some err)
            | inr cv =>
                match URLs cv with
                | [] => panic (* cv.URLs[0] *)
                | path :: _ =>
                    match strings.Split path strings.slash with
                    | _ :: fileName :: _ =>
                        let filePath :=
                          dir ++ "/" ++ repoName ++ "-" ++ Digest cv ++ "-" ++ fileName in
                        err ← os_Stat filePath;
                        if negb (os_IsNotExist err)
                        then mret (filePath, None)
                        else
                          err ← downloadFileFromEntry entry path filePath;
                          match err with
                          | Some err => mret ("", Some err)
                          | None => mret (filePath, None)
                          end
                    | _ => panic (* strings.Split(path, "/")[1] *)
                    end
                end
            end
        end
    end.

(** The tail of [fetchAuthFromSecret], once the secret [s] is read. *)
Definition credentials (s : Secret) (name namespace : string)
  : string * string * option error :=
  let username :=
    match Data s !! "username" with
    | Some u => strings.Trim u strings.newline
    | None => ""
    end in
  let password :=
    match Data s !! "password" with
    | Some p => strings.Trim p strings.newline
    | None => ""
    end in
  if String.eqb username "" || String.eqb password ""
  then ("", "", Some (errors_New
          ("can not find username or password in the secret " ++ namespace ++ "/" ++ name)))
  else (username, password, None).

(** [fetchAuthFromSecret]. *)
Definition fetchAuthFromSecret (d : Downloader) (name namespace : string)
  : Go (string * string * option error) :=
  match kubernetes_NewForConfig w (incfg d) with
  | Some err => mret ("", "", Some err)
  | None =>
      call (SecretGet (incfg d) namespace name);;
      match secrets_Get w (incfg d) namespace name with
      | inr s => mret (credentials s name namespace)
      | inl err =>
          if apierrors_IsNotFound err
          then
            match kubernetes_NewForConfig w (cfg d) with
            | Some errI => mret ("", "", Some errI)
            | None =>
                call (SecretGet (cfg d) namespace name);;
                match secrets_Get w (cfg d) namespace name with
                | inl err => mret ("", "", Some err)
                | inr s => mret (credentials s name namespace)
                end
            end
          else mret ("", "", Some err)
      end
  end.

(** [downloadChartFromHTTP].  [filePath] and [err] are the variables
    declared at the top of the function: both are returned at its
    end, whatever was assigned to them. *)
Definition downloadChartFromHTTP (d : Downloader) (hr : HelmRequest)
  : Go (string * option error) :=
  match Spec_Source hr ≫= HTTP with
  | Some http =>
      if nonempty (HTTP_URL http)
      then
        let dir := ChartsDir in
        err ← os_Stat dir;
        err ← (if os_IsNotExist err then os_MkdirAll dir else mret None);
        match err with
        | Some err => mret ("", Some err)
        | None =>
            let url := HTTP_URL http in
            let chname := splitChartNameFromURL url in
            let filePath := dir ++ "/" ++ GetName hr ++ "-" ++ chname in
            err ← os_Stat filePath;
            (if negb (os_IsNotExist err)
             then (* chart already downloaded, remove it *)
               os_Remove filePath;; mret tt
             else mret tt);;
            '(username, password, err) ←
              (if nonempty (HTTP_SecretRef http)
               then fetchAuthFromSecret d (HTTP_SecretRef http) (GetNamespace hr)
               else mret ("", "", None));
            match err with
            | Some err => mret ("", Some err)
            | None =>
                if strings.HasPrefix url "http://" || strings.HasPrefix url "https://"
                then
                  err ← downloadFile url username password filePath;
                  match err with
                  | Some err => mret ("", Some err)
                  | None => mret (filePath, None)
                  end
                else
                  mret (filePath,
                        Some (errors_New
                          "helmrequest spec source http url does not start with HTTP or HTTPS"))
            end
        end
      else mret ("", Some (errors_New "helmrequest spec source http url not found"))
  | None => mret ("", None)
  end.

(** [pullOCIChart]. *)
Definition pullOCIChart (d : Downloader) (hr : HelmRequest)
  : Go (option chart_Chart * option error) :=
  match registry_NewClient w with
  | Some err => mret (None, Some err)
  | None =>
      match Spec_Source hr ≫= OCI with
      | Some oci =>
          '(username, password, err) ←
            (if nonempty (OCI_SecretRef oci)
             then fetchAuthFromSecret d (OCI_SecretRef oci) (GetNamespace hr)
             else mret ("", "", None));
          match err with
          | Some err => mret (None, Some err)
          | None =>
              match registry_ParseReference w (OCI_Repo oci) with
              | inl err => mret (None, Some err)
              | inr ref =>
                  call (RegistryPull ref username password);;
                  match registry_PullChart w ref username password with
                  | Some err => mret (None, Some err)
                  | None =>
                      call (RegistryLoad ref);;
                      match registry_LoadChart w ref with
                      | inl err => mret (None, Some err)
                      | inr cht => mret (Some cht, None)
                      end
                  end
              end
          end
      | None => mret (None, Some (errors_New "invalid chart Source, need OCI type"))
      end
  end.

End Download.

(** ** The earlier variant of the file

    The second source file is an earlier variant of the same package:
    one client configuration, a chart path returned directly by
    [chartrepo.GetChart], and a first look at the path computed from the
    name and the version. *)
Module Legacy.

Record Downloader : Type :=
  { cfg : rest_Config;
    ns : string (* system ns *) }.

Section Download.

Context (w : World).
(** [chartrepo.GetChart] of this variant returns the path itself. *)
Context (chartrepo_GetChart : string -> string -> string -> rest_Config -> error + string).

(** [getRepoInfo]: get from cache first, then get from k8s. *)
Definition getRepoInfo (d : Downloader) (name ns : string) : Go (error + repo_Entry) :=
  c ← gets repoCache;
  match c !! name with
  | Some result => mret (inr result)
  | None =>
      call (MetadataGetChartRepo name ns (cfg d));;
      match chartrepo_GetChartRepo w name ns (cfg d) with
      | inr entry => modify (set_repoCache (insert name entry));; mret (inr entry)
      | inl err => mret (inl err)
      end
  end.

(** [getChartPath]: cal the local path for a chart. *)
Definition getChartPath (name version : string) : string :=
  let new := strings.Replace name strings.slash "-"%char in
  ChartsDir ++ "/" ++ new ++ "-" ++ version ++ ".tgz".

(** [downloadFile] of this variant. *)
Definition downloadFile (entry : repo_Entry) (chartPath filepath : string)
  : Go (option error) :=
  let url := URL entry ++ "/" ++ chartPath in
  let url := if strings.HasSuffix (URL entry) "/" then URL entry ++ chartPath else url in
  let '(req, _) := http_NewRequest w "GET" url in
  req ← (if nonempty (Username entry) && nonempty (Password entry)
         then SetBasicAuth req (Username entry) (Password entry)
         else mret req);
  r ← httpClient_Do w req;
  match r with
  | inl err => mret (Some err)
  | inr resp =>
      if negb (StatusCode resp =? 200)
      then mret (Some (errors_New ("failed to fetch " ++ url ++ " : " ++ Status resp)))
      else
        match Body resp with
        | inl err => mret (Some err)
        | inr buf =>
            err ← ioutil_WriteFile w filepath buf;
            match err with
            | Some err => mret (Some err)
            | None => mret None
            end
        end
  end.

(** [downloadChart] of this variant. *)
Definition downloadChart (d : Downloader) (name version : string)
  : Go (string * option error) :=
  let '(repo, chart) := getRepoAndChart name in
  if String.eqb repo "" && String.eqb chart ""
  then mret ("", Some (errors_New "cannot parse chart name"))
  else
    let dir := ChartsDir in
    let checkPath := getChartPath name version in
    cached ← (if nonempty version
              then (* we can check the path now *)
                err ← os_Stat w checkPath; mret (negb (os_IsNotExist err))
              else mret false);
    if (cached : bool) then mret (checkPath, None)
    else
      r ← getRepoInfo d repo (ns d);
      match r with
      | inl err => mret ("", Some err)
      | inr entry =>
          let chartResourceName := strings.ToLower chart ++ "." ++ repo in
          call (MetadataGetChart chartResourceName version (ns d) (cfg d));;
          match chartrepo_GetChart chartResourceName version (ns d) (cfg d) with
          | inl err => mret ("", Some err)
          | inr path =>
              err ← os_Stat w dir;
              err ← (if os_IsNotExist err then os_MkdirAll w dir else mret None);
              match err with
              | Some err => mret ("", Some err)
              | None =>
                  match strings.Split path strings.slash with
                  | _ :: fileName :: _ =>
                      let filePath := dir ++ "/" ++ repo ++ "-" ++ fileName in
                      err ← os_Stat w filePath;
                      if negb (os_IsNotExist err)
                      then mret (filePath, None)
                      else
                        err ← downloadFile entry path filePath;
                        match err with
                        | Some err => mret ("", Some err)
                        | None => mret (filePath, None)
                        end
                  | _ => panic (* strings.Split(path, "/")[1] *)
                  end
              end
          end
      end.

End Download.

End Legacy.

(** ** A sample deployment

    One repository ([stable]) serving one chart, one chart whose
    resolved path is a bare file name, secrets spread over the two
    clusters, and an HTTP source answering 200, 204 and 404. *)
Module Sample.

Definition in_cluster : rest_Config := {| Host := "https://kubernetes.default.svc" |}.
Definition target : rest_Config := {| Host := "https://business-1:6443" |}.

Definition d : Downloader := NewDownloader "captain-system" in_cluster target.

Definition not_found (what : string) : error := StatusError true (what ++ " not found").

Definition secret_of (l : list (string * string)) : Secret := {| Data := list_to_map l |}.

Definition line_feed : string := String strings.newline "".

Definition world : World :=
  {| chartrepo_GetChartRepo := fun name _ _ =>
       if String.eqb name "stable"
       then inr {| URL := "https://charts.example.com"; Username := ""; Password := "" |}
       else inl (not_found "chartrepo");
     chartrepo_GetChart := fun resource _ _ _ =>
       if String.eqb resource "nginx.stable"
       then inr {| URLs := ["charts/nginx-1.2.3.tgz"]; Digest := "abc" |}
       else if String.eqb resource "flat.stable"
       then inr {| URLs := ["flat-0.1.0.tgz"]; Digest := "def" |}
       else inl (not_found "chart");
     kubernetes_NewForConfig := fun _ => None;
     secrets_Get := fun c _ name =>
       if String.eqb name "forbidden" then inl (StatusError false "secrets is forbidden")
       else if String.eqb (Host c) (Host in_cluster) && String.eqb name "global-cred"
       then inr (secret_of [("username", "alice"); ("password", "a1")])
       else if String.eqb (Host c) (Host target) && String.eqb name "regcred"
       then inr (secret_of [("username", line_feed ++ "bob" ++ line_feed);
                            ("password", "pw" ++ line_feed)])
       else if String.eqb (Host c) (Host target) && String.eqb name "half"
       then inr (secret_of [("username", "carol")])
       else inl (not_found "secret");
     http_NewRequest_err := fun _ url =>
       if String.eqb url "http://[::1"
       then Some (Foreign "parse http://[::1: missing ']' in host")
       else None;
     http_RoundTrip := fun req =>
       if String.eqb (ReqURL req) "https://charts.example.com/charts/nginx-1.2.3.tgz"
       then inr {| StatusCode := 200; Status := "200 OK"; Body := inr [Byte.x1f; Byte.x8b] |}
       else if String.eqb (ReqURL req) "https://files.example.com/pkg/app-2.0.tgz"
       then inr {| StatusCode := 200; Status := "200 OK"; Body := inr [Byte.x1f; Byte.x8b] |}
       else if String.eqb (ReqURL req) "https://files.example.com/pkg/accepted.tgz"
       then inr {| StatusCode := 204; Status := "204 No Content"; Body := inr [] |}
       else inr {| StatusCode := 404; Status := "404 Not Found"; Body := inr [] |};
     registry_NewClient := None;
     registry_ParseReference := fun ref =>
       if String.eqb ref "registry.example.com/charts/app:1.0"
       then inr {| RefRepo := "registry.example.com/charts/app"; RefTag := "1.0" |}
       else inl (Foreign "invalid reference");
     registry_PullChart := fun _ _ _ => None;
     registry_LoadChart := fun ref => inr {| ChartName := RefRepo ref |};
     os_stat_fault := fun _ => None;
     os_mkdir_fault := fun _ => None;
     os_write_fault := fun _ => None;
     os_remove_fault := fun _ => false |}.

(** The same deployment on a disk that fills up after one byte. *)
Definition full_disk : World :=
  {| chartrepo_GetChartRepo := chartrepo_GetChartRepo world;
     chartrepo_GetChart := chartrepo_GetChart world;
     kubernetes_NewForConfig := kubernetes_NewForConfig world;
     secrets_Get := secrets_Get world;
     http_NewRequest_err := http_NewRequest_err world;
     http_RoundTrip := http_RoundTrip world;
     registry_NewClient := registry_NewClient world;
     registry_ParseReference := registry_ParseReference world;
     registry_PullChart := registry_PullChart world;
     registry_LoadChart := registry_LoadChart world;
     os_stat_fault := os_stat_fault world;
     os_mkdir_fault := os_mkdir_fault world;
     os_write_fault := fun _ => Some (PathError false "no space left on device", Some 1%nat);
     os_remove_fault := os_remove_fault world |}.

(** The same deployment with a store whose chart versions list no URL. *)
Definition no_url_store : World :=
  {| chartrepo_GetChartRepo := chartrepo_GetChartRepo world;
     chartrepo_GetChart := fun _ _ _ _ => inr {| URLs := []; Digest := "abc" |};
     kubernetes_NewForConfig := kubernetes_NewForConfig world;
     secrets_Get := secrets_Get world;
     http_NewRequest_err := http_NewRequest_err world;
     http_RoundTrip := http_RoundTrip world;
     registry_NewClient := registry_NewClient world;
     registry_ParseReference := registry_ParseReference world;
     registry_PullChart := registry_PullChart world;
     registry_LoadChart := registry_LoadChart world;
     os_stat_fault := os_stat_fault world;
     os_mkdir_fault := os_mkdir_fault world;
     os_write_fault := os_write_fault world;
     os_remove_fault := os_remove_fault world |}.

(** [chartrepo.GetChart] of the earlier variant. *)
Definition legacy_GetChart (resource _ _ : string) (_ : rest_Config) : error + string :=
  if String.eqb resource "flat.stable" then inr "flat-0.1.0.tgz"
  else inr "charts/nginx-1.2.3.tgz".

Definition legacy_d : Legacy.Downloader :=
  {| Legacy.cfg := in_cluster; Legacy.ns := "captain-system" |}.

(** A fresh process on an empty disk. *)
Definition cold : State := {| fs := ∅; repoCache := ∅; calls := [] |}.

Definition old_archive : list Byte.byte := [Byte.x50; Byte.x4b].

(** A disk that already holds both archives. *)
Definition warm : State :=
  {| fs := list_to_map
             [(ChartsDir, Dir);
              ("/tmp/helm-charts/stable-abc-nginx-1.2.3.tgz", File old_archive);
              ("/tmp/helm-charts/web-app-2.0.tgz", File old_archive)];
     repoCache := ∅;
     calls := [] |}.

Definition http_request (url secretRef : string) : HelmRequest :=
  {| Name := "web"; Namespace := "default";
     Spec_Source := Some {| HTTP := Some {| HTTP_URL := url; HTTP_SecretRef := secretRef |};
                            OCI := None |} |}.

Definition oci_request (repo secretRef : string) : HelmRequest :=
  {| Name := "web"; Namespace := "default";
     Spec_Source := Some {| HTTP := None;
                            OCI := Some {| OCI_Repo := repo; OCI_SecretRef := secretRef |} |} |}.

(** A request whose source is nil. *)
Definition bare_request : HelmRequest :=
  {| Name := "web"; Namespace := "default"; Spec_Source := None |}.

End Sample.

(** ** Vocabulary of the statements *)

(** The error of [downloadChart] on a name it cannot parse. *)
Definition parse_error : error := errors_New "cannot parse chart name".

(** The error of [fetchAuthFromSecret] on an incomplete secret. *)
Definition incomplete_secret (name namespace : string) : error :=
  errors_New ("can not find username or password in the secret " ++ namespace ++ "/" ++ name).

(** The request [downloadFile] sends for [url] and the credentials. *)
Definition request_for (url username password : string) : Request :=
  {| Method := "GET"; ReqURL := url;
     BasicAuth := if nonempty username && nonempty password
                  then Some (username, password) else None |}.

(** [n] copies of a byte. *)
Fixpoint pad (c : ascii) (n : nat) : string :=
  match n with
  | O => ""
  | S n => String c (pad c n)
  end.

Definition starts_with (c : ascii) (s : string) : Prop :=
  match s with
  | String a _ => a = c
  | EmptyString => False
  end.

Definition ends_with (c : ascii) (s : string) : Prop :=
  starts_with c (strings.rev s).

(** The calls of the secret store. *)
Definition is_secret_read (c : Call) : Prop :=
  match c with
  | SecretGet _ _ _ => True
  | _ => False
  end.

(** The destination of an HTTP-source request. *)
Definition http_destination (hr : HelmRequest) (http : ChartSourceHTTP) : string :=
  ChartsDir ++ "/" ++ GetName hr ++ "-" ++ splitChartNameFromURL (HTTP_URL http).

(** [grows m]: [m] only adds to the calls made so far. *)
Definition grows {A} (m : Go A) : Prop :=
  ∀ s, calls s `prefix_of` calls (final (m s)).

(** [spares D m]: every path that exists before [m] runs and lies
    outside [D] keeps its content. *)
Definition spares {A} (D : string → Prop) (m : Go A) : Prop :=
  ∀ s q, is_Some (fs s !! q) → ¬ D q → fs (final (m s)) !! q = fs s !! q.

Definition nowhere : string → Prop := λ _, False.

(** [invariant I m]: a property of the state that [m] keeps. *)
Definition invariant {A} (I : State → Prop) (m : Go A) : Prop :=
  ∀ s, I s → I (final (m s)).

(** [yields Q m]: whatever [m] returns satisfies [Q]. *)
Definition yields {A} (Q : A → Prop) (m : Go A) : Prop :=
  ∀ s a s', m s = Returns a s' → Q a.

(** Every call made so far is one of [l0] or satisfies [P]. *)
Definition calls_within (l0 : list Call) (P : Call → Prop) (s : State) : Prop :=
  ∀ c, c ∈ calls s → c ∈ l0 ∨ P c.

(** The repository cache holds what the metadata store answers for the
    downloader's namespace and configuration. *)
Definition coherent (w : World) (d : Downloader) (s : State) : Prop :=
  ∀ name entry,
    repoCache s !! name = Some entry →
    chartrepo_GetChartRepo w name (ns d) (incfg d) = inr entry.

(** The calls of each flow. *)
Definition repository_call (c : Call) : Prop :=
  match c with
  | MetadataGetChartRepo _ _ _ | MetadataGetChart _ _ _ _ | HTTPDo _ => True
  | _ => False
  end.

Definition http_source_call (c : Call) : Prop :=
  match c with
  | SecretGet _ _ _ | HTTPDo _ => True
  | _ => False
  end.

Definition oci_call (c : Call) : Prop :=
  match c with
  | SecretGet _ _ _ | RegistryPull _ _ _ | RegistryLoad _ => True
  | _ => False
  end.

(** A result of [downloadChart] is a path without an error or an error
    without a path. *)
Definition path_xor_error (r : string * option error) : Prop :=
  match r with
  | (p, None) => p ≠ ""
  | (p, Some _) => p = ""
  end.

(** [os.Stat] does not report the path as missing: it is there, or the
    stat fails for another reason. *)
Definition stat_finds (w : World) (s : State) (p : string) : Prop :=
  os_stat_fault w p ≠ None ∨ is_Some (fs s !! p).

(** * Properties *)

(** ** Splitting on a byte *)

Lemma Split_length s c :
  length (strings.Split s c) = S (strings.Count s c).
Proof.
  induction s as [|a rest IH]; simpl; [done|].
  destruct (Ascii.eqb a c); simpl; [by rewrite IH|].
  destruct (strings.Split rest c); simpl in *; lia.
Qed.

Lemma Split_single s c seg :
  strings.Split s c = [seg] → s = seg ∧ strings.Count s c = 0%nat.
Proof.
  revert seg. induction s as [|a rest IH]; simpl; intros seg H.
  - by injection H as <-.
  - pose proof (Split_length rest c) as L.
    destruct (Ascii.eqb a c) eqn:E.
    + injection H as _ H. rewrite H in L. simpl in L. lia.
    + destruct (strings.Split rest c) as [|seg' segs] eqn:S; [done|].
      injection H as <- ->. destruct (IH seg' eq_refl) as [-> ?]. done.
Qed.

Lemma Split_pair s c r t :
  strings.Split s c = [r; t] → s = r ++ String c t.
Proof.
  revert r. induction s as [|a rest IH]; simpl; intros r H; [done|].
  destruct (Ascii.eqb a c) eqn:E.
  - apply Ascii.eqb_eq in E as ->. injection H as <- H.
    apply Split_single in H as [-> _]. done.
  - destruct (strings.Split rest c) as [|seg' segs] eqn:S; [done|].
    injection H as <- ->. by rewrite (IH seg' eq_refl) at 1.
Qed.

(** A path without a separator is its own and only segment. *)
Lemma Split_no_sep s c :
  strings.Count s c = 0%nat → strings.Split s c = [s].
Proof.
  intros H. pose proof (Split_length s c) as L. rewrite H in L.
  destruct (strings.Split s c) as [|seg [|]] eqn:S; simpl in L; try lia.
  by apply Split_single in S as [-> _].
Qed.

(** A path with a separator has a second segment. *)
Lemma Split_sep s c :
  strings.Count s c ≠ 0%nat →
  ∃ seg0 seg1 segs, strings.Split s c = seg0 :: seg1 :: segs.
Proof.
  intros H. pose proof (Split_length s c) as L.
  destruct (strings.Split s c) as [|seg0 [|seg1 segs]]; simpl in L; [lia..|].
  eauto.
Qed.

(** [getRepoAndChart] gives its sentinel exactly on the names that do
    not hold one separator, and on ["/"]. *)
Lemma getRepoAndChart_sentinel name :
  getRepoAndChart name = ("", "") ↔
  strings.Count name strings.slash ≠ 1%nat ∨ name = "/".
Proof.
  unfold getRepoAndChart.
  pose proof (Split_length name strings.slash) as L.
  destruct (strings.Split name strings.slash) as [|r [|c [|]]] eqn:S; simpl in L.
  - split; [intros _; left; lia | done].
  - split; [intros _; left; lia | done].
  - apply Split_pair in S as ->. split.
    + intros [= -> ->]. by right.
    + intros [?|E]; [lia|].
      destruct r as [|a r]; simpl in E.
      * injection E as ->. done.
      * injection E as -> E. by destruct r.
  - split; [intros _; left; lia | done].
Qed.

Lemma getRepoAndChart_pair name :
  strings.Count name strings.slash = 1%nat →
  ∃ r c, name = r ++ "/" ++ c ∧ getRepoAndChart name = (r, c).
Proof.
  intros H. unfold getRepoAndChart.
  pose proof (Split_length name strings.slash) as L. rewrite H in L.
  destruct (strings.Split name strings.slash) as [|r [|c [|]]] eqn:S; simpl in L; try lia.
  exists r, c. split; [|done]. by apply Split_pair in S.
Qed.

(** ** Running a computation *)

Lemma final_bind {A B} (m : Go A) (k : A → Go B) s :
  final ((m ≫= k) s) =
  match m s with
  | Returns a s' => final (k a s')
  | Panics s' => s'
  end.
Proof. unfold mbind, Go_bind. by destruct (m s). Qed.

Lemma bind_returns {A B} (m : Go A) (k : A → Go B) s a s' :
  m s = Returns a s' → (m ≫= k) s = k a s'.
Proof. unfold mbind, Go_bind. by intros ->. Qed.

Lemma ret_bind {A B} (a : A) (k : A → Go B) s :
  (mret a ≫= k) s = k a s.
Proof. done. Qed.

Lemma bind_panics {A B} (m : Go A) (k : A → Go B) s s' :
  m s = Panics s' → (m ≫= k) s = Panics s'.
Proof. unfold mbind, Go_bind. by intros ->. Qed.

(** ** Calls only accumulate *)

Lemma grows_ret {A} (a : A) : grows (mret a).
Proof. intros s. done. Qed.

Lemma grows_panic {A} : grows (@panic A).
Proof. intros s. done. Qed.

Lemma grows_gets {A} (f : State → A) : grows (gets f).
Proof. intros s. done. Qed.

Lemma grows_call c : grows (call c).
Proof. intros s. simpl. by apply prefix_app_r. Qed.

Lemma grows_set_fs f : grows (modify (set_fs f)).
Proof. intros s. done. Qed.

Lemma grows_set_repoCache f : grows (modify (set_repoCache f)).
Proof. intros s. done. Qed.

Lemma grows_bind {A B} (m : Go A) (k : A → Go B) :
  grows m → (∀ a, grows (k a)) → grows (m ≫= k).
Proof.
  intros Hm Hk s. rewrite final_bind. specialize (Hm s).
  destruct (m s) as [a s'|s']; simpl in *; [|done].
  etrans; [exact Hm | apply Hk].
Qed.

Lemma elem_of_snoc {A} (l : list A) (x y : A) :
  y ∈ (l ++ [x])%list ↔ y ∈ l ∨ y = x.
Proof. by rewrite elem_of_app, list_elem_of_singleton. Qed.

(** Decide where a call of a list built by [record] comes from. *)
Ltac trace_cases :=
  let c := fresh "c" in
  let H := fresh "H" in
  intros c H; simpl in H;
  repeat (apply elem_of_snoc in H as [H| ->]);
  eauto.

Lemma grows_elem {A} (m : Go A) s c :
  grows m → c ∈ calls s → c ∈ calls (final (m s)).
Proof. intros Hm Hc. destruct (Hm s) as [k ->]. set_solver. Qed.

Create HintDb grows discriminated.

#[export] Hint Resolve grows_ret grows_panic grows_gets grows_call
  grows_set_fs grows_set_repoCache : grows.

Ltac grows :=
  repeat first
    [ solve [auto with grows]
    | apply grows_bind; [|intros]
    | case_match ].

Section Grows.

Context (w : World).

Lemma grows_os_Stat p : grows (os_Stat w p).
Proof. unfold os_Stat. grows. Qed.

Lemma grows_os_MkdirAll p : grows (os_MkdirAll w p).
Proof. unfold os_MkdirAll. grows. Qed.

Lemma grows_os_Remove p : grows (os_Remove w p).
Proof. unfold os_Remove. grows. Qed.

Lemma grows_ioutil_WriteFile p data : grows (ioutil_WriteFile w p data).
Proof. unfold ioutil_WriteFile. grows. Qed.

Lemma grows_SetBasicAuth req u p : grows (SetBasicAuth req u p).
Proof. unfold SetBasicAuth. grows. Qed.

Lemma grows_httpClient_Do req : grows (httpClient_Do w req).
Proof. unfold httpClient_Do. grows. Qed.

Hint Resolve grows_os_Stat grows_os_MkdirAll grows_os_Remove
  grows_ioutil_WriteFile grows_SetBasicAuth grows_httpClient_Do : grows.

Lemma grows_downloadFile url u p filepath : grows (downloadFile w url u p filepath).
Proof. unfold downloadFile. grows. Qed.

Lemma grows_downloadFileFromEntry entry path filepath :
  grows (downloadFileFromEntry w entry path filepath).
Proof. unfold downloadFileFromEntry. apply grows_downloadFile. Qed.

Lemma grows_getRepoInfo d name ns : grows (getRepoInfo w d name ns).
Proof. unfold getRepoInfo. grows. Qed.

Lemma grows_fetchAuthFromSecret d name namespace :
  grows (fetchAuthFromSecret w d name namespace).
Proof. unfold fetchAuthFromSecret. grows. Qed.

End Grows.

#[export] Hint Resolve grows_os_Stat grows_os_MkdirAll grows_os_Remove
  grows_ioutil_WriteFile grows_SetBasicAuth grows_httpClient_Do
  grows_downloadFile grows_downloadFileFromEntry grows_getRepoInfo
  grows_fetchAuthFromSecret : grows.

(** ** What the primitives return *)

Section Primitives.

Context (w : World).

(** [os.Stat] never changes the state, and reports a missing path
    only when the path is missing. *)
Lemma os_Stat_returns p s :
  ∃ err, os_Stat w p s = Returns err s
         ∧ (os_IsNotExist err = true → fs s !! p = None)
         ∧ (is_Some (fs s !! p) → os_IsNotExist err = false).
Proof.
  unfold os_Stat, gets, mbind, mret, Go_bind, Go_ret.
  destruct (os_stat_fault w p); [by eexists|].
  destruct (fs s !! p) eqn:E; eexists; (split; [done|]); split; try done.
Qed.

Lemma os_Stat_exists p s :
  is_Some (fs s !! p) →
  ∃ err, os_Stat w p s = Returns err s ∧ os_IsNotExist err = false.
Proof.
  intros H. destruct (os_Stat_returns p s) as (err & ? & _ & ?). eauto.
Qed.

Lemma getRepoInfo_hit d name ns s entry :
  repoCache s !! name = Some entry →
  getRepoInfo w d name ns s = Returns (inr entry) s.
Proof.
  intros H. unfold getRepoInfo, gets, mbind, mret, Go_bind, Go_ret. by rewrite H.
Qed.

Lemma getRepoInfo_miss d name ns s :
  repoCache s !! name = None →
  getRepoInfo w d name ns s =
  let s1 := record (MetadataGetChartRepo name ns (incfg d)) s in
  match chartrepo_GetChartRepo w name ns (incfg d) with
  | inr entry => Returns (inr entry) (set_repoCache (insert name entry) s1)
  | inl err => Returns (inl err) s1
  end.
Proof.
  intros H. unfold getRepoInfo, gets, call, modify, mbind, mret, Go_bind, Go_ret.
  rewrite H. simpl. by destruct (chartrepo_GetChartRepo w name ns (incfg d)).
Qed.

End Primitives.

Ltac step H := rewrite (bind_returns _ _ _ _ _ H).

(** ** Parsing of compound names *)

(** C2, as amended.  [downloadChart] fails with the parse error, before
    any lookup and without touching the state, exactly on the names that
    do not split on [/] into two segments and on the name ["/"], whose
    two segments are both empty.  Every other name with one separator,
    also one with a single empty segment, passes: on a cold cache the
    repository named by its first segment is looked up. *)
Theorem downloadChart_parse (w : World) (d : Downloader) (name version : string) (s : State) :
  (strings.Count name strings.slash ≠ 1%nat ∨ name = "/" →
     downloadChart w d name version s = Returns ("", Some parse_error) s) ∧
  (strings.Count name strings.slash = 1%nat → name ≠ "/" →
     ∃ r c, name = r ++ "/" ++ c ∧ getRepoAndChart name = (r, c) ∧
       (is_Some (fs s !! ChartsDir) → repoCache s !! r = None →
          MetadataGetChartRepo r (ns d) (incfg d)
            ∈ calls (final (downloadChart w d name version s)))).
Proof.
  split.
  - intros H. apply getRepoAndChart_sentinel in H.
    unfold downloadChart. by rewrite H.
  - intros H1 Hne. destruct (getRepoAndChart_pair name H1) as (r & c & Hname & Hrc).
    exists r, c. do 2 (split; [done|]). intros [n Hn] Hmiss.
    unfold downloadChart. rewrite Hrc.
    destruct (String.eqb r "" && String.eqb c "") eqn:E.
    { apply andb_prop in E as [->%String.eqb_eq ->%String.eqb_eq].
      by rewrite Hname in Hne. }
    destruct (os_Stat_exists w ChartsDir s) as (err & Hstat & Herr); [by eexists|].
    step Hstat. rewrite Herr. rewrite ret_bind.
    rewrite final_bind, getRepoInfo_miss by done.
    destruct (chartrepo_GetChartRepo w r (ns d) (incfg d)) as [e|entry].
    + simpl. set_solver.
    + apply grows_elem; [grows | simpl; set_solver].
Qed.

Lemma downloadChart_parse_witness :
  downloadChart Sample.world Sample.d "a/b/c" "" Sample.warm
    = Returns ("", Some parse_error) Sample.warm
  ∧ MetadataGetChartRepo "stable" "captain-system" Sample.in_cluster
      ∈ calls (final (downloadChart Sample.world Sample.d "stable/nginx" "" Sample.warm)).
Proof.
  destruct (downloadChart_parse Sample.world Sample.d "a/b/c" "" Sample.warm) as [H _].
  destruct (downloadChart_parse Sample.world Sample.d "stable/nginx" "" Sample.warm)
    as [_ H'].
  split.
  - apply H. left. vm_compute. lia.
  - destruct H' as (r & c & Hname & Hrc & Hcall); [reflexivity | discriminate |].
    injection Hrc as <- <-. apply Hcall; [by eexists | reflexivity].
Defined.

(** The name ["repo/"] has an empty second segment and is not refused:
    the repository [repo] is looked up in the metadata store, and the
    error returned is the store's. *)
Lemma downloadChart_parse_counterexample :
  getRepoAndChart "repo/" = ("repo", "")
  ∧ downloadChart Sample.world Sample.d "repo/" "" Sample.warm
    = Returns ("", Some (Sample.not_found "chartrepo"))
        (record (MetadataGetChartRepo "repo" "captain-system" Sample.in_cluster) Sample.warm)
  ∧ Sample.not_found "chartrepo" ≠ parse_error.
Proof. split; [reflexivity|]. split; [vm_compute; reflexivity | discriminate]. Qed.

(** ** The byte transfer *)

Lemma downloadFile_response (w : World) (url username password filepath : string)
    (s : State) :
  http_NewRequest_err w "GET" url = None →
  downloadFile w url username password filepath s =
  let s1 := record (HTTPDo (request_for url username password)) s in
  match http_RoundTrip w (request_for url username password) with
  | inl err => Returns (Some err) s1
  | inr resp =>
      if negb (StatusCode resp =? 200)
      then Returns (Some (errors_New ("failed to fetch " ++ url ++ " : " ++ Status resp))) s1
      else match Body resp with
           | inl err => Returns (Some err) s1
           | inr buf =>
               match ioutil_WriteFile w filepath buf s1 with
               | Returns err s2 => Returns err s2
               | Panics s2 => Panics s2
               end
           end
  end.
Proof.
  intros Hreq. unfold downloadFile, http_NewRequest, request_for. rewrite Hreq.
  destruct (nonempty username && nonempty password); simpl;
    unfold mbind, mret, Go_bind, Go_ret; simpl.
  all: match goal with |- context [http_RoundTrip ?w' ?r] =>
         destruct (http_RoundTrip w' r) as [err|resp]; [done|] end.
  all: destruct (negb (StatusCode resp =? 200)); [done|].
  all: destruct (Body resp) as [err|buf]; [done|].
  all: match goal with |- context [ioutil_WriteFile ?w' ?f ?b ?s'] =>
         destruct (ioutil_WriteFile w' f b s') as [[err|] s2|s2]; done end.
Qed.

(** C3, as amended.  The one status [downloadFile] accepts is 200: the
    body is then written to the destination.  Every other status, the
    other 2xx ones included, makes it return an error that holds the
    requested URL and the response status text, and leaves the disk as
    it was. *)
Theorem downloadFile_status (w : World) (url username password filepath : string)
    (s : State) (resp : Response) :
  http_NewRequest_err w "GET" url = None →
  http_RoundTrip w (request_for url username password) = inr resp →
  let s1 := record (HTTPDo (request_for url username password)) s in
  (StatusCode resp ≠ 200 →
     downloadFile w url username password filepath s
     = Returns (Some (errors_New ("failed to fetch " ++ url ++ " : " ++ Status resp))) s1)
  ∧ (StatusCode resp = 200 →
     ∀ body, Body resp = inr body →
       fs s !! filepath ≠ Some Dir → os_write_fault w filepath = None →
       downloadFile w url username password filepath s
       = Returns None (set_fs (insert filepath (File body)) s1)).
Proof.
  intros Hreq Hresp s1. rewrite downloadFile_response by done. rewrite Hresp. simpl.
  split.
  - intros Hne. apply Z.eqb_neq in Hne. by rewrite Hne.
  - intros -> body -> Hdir Hfault. simpl.
    unfold ioutil_WriteFile, gets, modify, mbind, mret, Go_bind, Go_ret. simpl.
    rewrite Hfault. by destruct (fs s !! filepath) as [[|]|].
Qed.

Lemma downloadFile_status_witness :
  downloadFile Sample.world "https://files.example.com/pkg/missing.tgz" "" ""
    "/tmp/helm-charts/web-missing.tgz" Sample.cold
  = Returns (Some (errors_New
      "failed to fetch https://files.example.com/pkg/missing.tgz : 404 Not Found"))
      (record (HTTPDo (request_for "https://files.example.com/pkg/missing.tgz" "" ""))
         Sample.cold)
  ∧ downloadFile Sample.world "https://files.example.com/pkg/app-2.0.tgz" "" ""
      "/tmp/helm-charts/web-app-2.0.tgz" Sample.cold
    = Returns None
        (set_fs (insert "/tmp/helm-charts/web-app-2.0.tgz" (File [Byte.x1f; Byte.x8b]))
           (record (HTTPDo (request_for "https://files.example.com/pkg/app-2.0.tgz" "" ""))
              Sample.cold)).
Proof.
  split.
  - refine (proj1 (downloadFile_status Sample.world _ "" "" _ Sample.cold
                     {| StatusCode := 404; Status := "404 Not Found"; Body := inr [] |}
                     _ _) _); [reflexivity | reflexivity | discriminate].
  - refine (proj2 (downloadFile_status Sample.world _ "" "" _ Sample.cold
                     {| StatusCode := 200; Status := "200 OK";
                        Body := inr [Byte.x1f; Byte.x8b] |}
                     _ _) _ _ _ _ _); [reflexivity | reflexivity | reflexivity
                                       | reflexivity | discriminate | reflexivity].
Defined.

(** A 204 answer is a 2xx status and is refused all the same: the error
    is returned and nothing is written. *)
Lemma downloadFile_status_counterexample :
  downloadFile Sample.world "https://files.example.com/pkg/accepted.tgz" "" ""
    "/tmp/helm-charts/web-accepted.tgz" Sample.cold
  = Returns (Some (errors_New
      "failed to fetch https://files.example.com/pkg/accepted.tgz : 204 No Content"))
      (record (HTTPDo (request_for "https://files.example.com/pkg/accepted.tgz" "" ""))
         Sample.cold)
  ∧ (200 <= 204 < 300).
Proof. split; [vm_compute; reflexivity | lia]. Qed.

(** C10.  The error of [http.NewRequest] is dropped: when the request
    cannot be built, [downloadFile] goes on with the nil request and
    panics on its first use, whatever the credentials, instead of
    returning the error; no request is sent and the disk is untouched. *)
Theorem downloadFile_nil_request (w : World) (url username password filepath : string)
    (s : State) (e : error) :
  http_NewRequest_err w "GET" url = Some e →
  http_NewRequest w "GET" url = (None, Some e)
  ∧ downloadFile w url username password filepath s = Panics s.
Proof.
  intros H. unfold downloadFile, http_NewRequest. rewrite H. split; [done|].
  by destruct (nonempty username && nonempty password).
Qed.

Lemma downloadFile_nil_request_witness :
  http_NewRequest Sample.world "GET" "http://[::1"
    = (None, Some (Foreign "parse http://[::1: missing ']' in host"))
  ∧ downloadFile Sample.world "http://[::1" "alice" "a1" "/tmp/helm-charts/web-x"
      Sample.cold = Panics Sample.cold.
Proof. apply downloadFile_nil_request. reflexivity. Defined.

(** ** The steps before the destination path is known *)

Section Steps.

Context (w : World).

(** The cache directory step passes when the directory is there or can
    be made; it leaves the cache and the calls alone, and the disk too
    when the directory was there. *)
Lemma cache_dir_step s :
  is_Some (fs s !! ChartsDir) ∨ os_mkdir_fault w ChartsDir = None →
  ∃ s0,
    (∀ B (k : option error → Go B),
       (os_Stat w ChartsDir ≫= λ err,
          (if os_IsNotExist err then os_MkdirAll w ChartsDir else mret None) ≫= k) s
       = k None s0)
    ∧ repoCache s0 = repoCache s ∧ calls s0 = calls s
    ∧ (is_Some (fs s !! ChartsDir) → s0 = s)
    ∧ (∀ q, is_Some (fs s !! q) → fs s0 !! q = fs s !! q).
Proof.
  intros H. destruct (os_Stat_returns w ChartsDir s) as (err & Hstat & Hno & Hyes).
  destruct (os_IsNotExist err) eqn:E.
  - specialize (Hno eq_refl). destruct H as [[n Hn]|Hmk]; [congruence|].
    exists (set_fs (insert ChartsDir Dir) s).
    split; [|repeat split].
    + intros B k. step Hstat. rewrite E.
      unfold os_MkdirAll, gets, modify, mbind, mret, Go_bind, Go_ret.
      by rewrite Hno, Hmk.
    + intros [n Hn]. congruence.
    + intros q [n Hn]. simpl. apply lookup_insert_ne. congruence.
  - exists s. split; [|by repeat split].
    intros B k. step Hstat. by rewrite E, ret_bind.
Qed.

(** The repository step succeeds on a cache hit, and on a miss that
    the metadata store answers; the only call it can make is the
    repository lookup. *)
Lemma getRepoInfo_resolves d name ns s entry :
  repoCache s !! name = Some entry
  ∨ (repoCache s !! name = None ∧ chartrepo_GetChartRepo w name ns (incfg d) = inr entry) →
  ∃ s1 l,
    getRepoInfo w d name ns s = Returns (inr entry) s1
    ∧ fs s1 = fs s
    ∧ calls s1 = (calls s ++ l)%list
    ∧ (l = [] ∨ l = [MetadataGetChartRepo name ns (incfg d)]).
Proof.
  intros [Hhit|[Hmiss Hget]].
  - exists s, []. rewrite (getRepoInfo_hit w d name ns s entry Hhit).
    rewrite app_nil_r. auto.
  - eexists _, _. rewrite (getRepoInfo_miss w d name ns s Hmiss), Hget. simpl.
    repeat split. by right.
Qed.

End Steps.

(** ** The unchecked index *)

Lemma call_bind {B} (c : Call) (k : unit → Go B) s :
  (call c ≫= k) s = k tt (record c s).
Proof. done. Qed.

(** C9.  With a chart path that holds no [/], [strings.Split] has a
    single segment and the index [1] is out of range: [downloadChart]
    panics once the repository and the chart are resolved, in the
    current file and in its earlier variant alike.  A path that holds a
    [/] always has the second segment. *)
Theorem downloadChart_unchecked_index :
  (∀ (w : World) (d : Downloader) (name version : string) (s : State)
     (repoName chart : string) (entry : repo_Entry) (cv : ChartVersion)
     (path : string) (more : list string),
     getRepoAndChart name = (repoName, chart) →
     (repoName, chart) ≠ ("", "") →
     is_Some (fs s !! ChartsDir) ∨ os_mkdir_fault w ChartsDir = None →
     repoCache s !! repoName = Some entry
     ∨ (repoCache s !! repoName = None
        ∧ chartrepo_GetChartRepo w repoName (ns d) (incfg d) = inr entry) →
     chartrepo_GetChart w (strings.ToLower chart ++ "." ++ repoName) version
       (ns d) (incfg d) = inr cv →
     URLs cv = path :: more →
     strings.Count path strings.slash = 0%nat →
     ∃ s', downloadChart w d name version s = Panics s')
  ∧ (∀ (w : World) (GetChart : string → string → string → rest_Config → error + string)
       (d : Legacy.Downloader) (name version : string) (s : State)
       (repo chart : string) (entry : repo_Entry) (path : string),
     getRepoAndChart name = (repo, chart) →
     (repo, chart) ≠ ("", "") →
     version = "" ∨ fs s !! Legacy.getChartPath name version = None →
     os_stat_fault w (Legacy.getChartPath name version) = None →
     is_Some (fs s !! ChartsDir) ∨ os_mkdir_fault w ChartsDir = None →
     repoCache s !! repo = Some entry
     ∨ (repoCache s !! repo = None
        ∧ chartrepo_GetChartRepo w repo (Legacy.ns d) (Legacy.cfg d) = inr entry) →
     GetChart (strings.ToLower chart ++ "." ++ repo) version
       (Legacy.ns d) (Legacy.cfg d) = inr path →
     strings.Count path strings.slash = 0%nat →
     ∃ s', Legacy.downloadChart w GetChart d name version s = Panics s')
  ∧ (∀ path : string,
     strings.Count path strings.slash ≠ 0%nat →
     ∃ seg0 fileName segs, strings.Split path strings.slash = seg0 :: fileName :: segs).
Proof.
  split; [|split].
  - intros w d name version s repoName chart entry cv path more
      Hname Hparse Hdir Hrepo Hchart Hurls Hcount.
    unfold downloadChart. rewrite Hname.
    destruct (String.eqb repoName "" && String.eqb chart "") eqn:E.
    { apply andb_prop in E as [->%String.eqb_eq ->%String.eqb_eq]. done. }
    destruct (cache_dir_step w s Hdir) as (s0 & -> & Hcache & _).
    rewrite <- Hcache in Hrepo.
    destruct (getRepoInfo_resolves w d repoName (ns d) s0 entry Hrepo)
      as (s1 & l & Hinfo & _).
    step Hinfo. rewrite call_bind, Hchart, Hurls, (Split_no_sep _ _ Hcount).
    by eexists.
  - intros w GetChart d name version s repo chart entry path
      Hname Hparse Hcheck Hfault Hdir Hrepo Hchart Hcount.
    unfold Legacy.downloadChart. rewrite Hname.
    destruct (String.eqb repo "" && String.eqb chart "") eqn:E.
    { apply andb_prop in E as [->%String.eqb_eq ->%String.eqb_eq]. done. }
    assert ((if nonempty version
             then os_Stat w (Legacy.getChartPath name version) ≫=
                    (λ err, mret (negb (os_IsNotExist err)))
             else mret false) s = Returns false s) as Hcached.
    { destruct Hcheck as [->|Hnone]; [done|].
      destruct (nonempty version); [|done].
      unfold os_Stat, gets, mbind, mret, Go_bind, Go_ret. by rewrite Hfault, Hnone. }
    step Hcached.
    assert (∃ s1, Legacy.getRepoInfo w d repo (Legacy.ns d) s = Returns (inr entry) s1
                  ∧ fs s1 = fs s) as (s1 & Hinfo & Hfs).
    { unfold Legacy.getRepoInfo, gets, call, modify, mbind, mret, Go_bind, Go_ret.
      destruct Hrepo as [->|[-> ->]]; by eexists. }
    step Hinfo. rewrite call_bind, Hchart.
    rewrite <- Hfs in Hdir.
    match goal with |- context [_ (record ?c s1)] =>
      destruct (cache_dir_step w (record c s1) Hdir) as (s0 & -> & _) end.
    rewrite (Split_no_sep _ _ Hcount). by eexists.
  - intros path H. by apply Split_sep.
Qed.

Lemma downloadChart_unchecked_index_witness :
  (∃ s', downloadChart Sample.world Sample.d "stable/flat" "0.1.0" Sample.cold = Panics s')
  ∧ (∃ s', Legacy.downloadChart Sample.world Sample.legacy_GetChart Sample.legacy_d
             "stable/flat" "0.1.0" Sample.cold = Panics s')
  ∧ (∃ seg0 fileName segs,
       strings.Split "charts/nginx-1.2.3.tgz" strings.slash = seg0 :: fileName :: segs).
Proof.
  destruct downloadChart_unchecked_index as (Hnew & Hold & Hsplit).
  split; [|split].
  - eapply (Hnew Sample.world Sample.d "stable/flat" "0.1.0" Sample.cold
              "stable" "flat"); try reflexivity.
    + discriminate.
    + right. reflexivity.
    + right. split; reflexivity.
  - eapply (Hold Sample.world Sample.legacy_GetChart Sample.legacy_d
              "stable/flat" "0.1.0" Sample.cold "stable" "flat"); try reflexivity.
    + discriminate.
    + right. reflexivity.
    + right. reflexivity.
    + right. split; reflexivity.
  - apply Hsplit. vm_compute. lia.
Defined.

(** ** Credential resolution *)

(** C4.  With the first client built, [fetchAuthFromSecret] always
    starts by reading the secret through the primary scope [incfg].  It
    turns to the secondary scope [cfg] exactly when that read fails with
    a not-found error, and reads there at most once.  Any other error of
    the primary read is returned at once, and so is a failure of the
    secondary attempt, be it its client or its read.  The disk is never
    touched. *)
Theorem fetchAuthFromSecret_scopes (w : World) (d : Downloader) (name namespace : string)
    (s : State) :
  kubernetes_NewForConfig w (incfg d) = None →
  let primary := secrets_Get w (incfg d) namespace name in
  let retry := match primary with
               | inl err => apierrors_IsNotFound err
               | inr _ => false
               end in
  ∃ r s' rest,
    fetchAuthFromSecret w d name namespace s = Returns r s'
    ∧ fs s' = fs s
    ∧ calls s' = (calls s ++ SecretGet (incfg d) namespace name :: rest)%list
    ∧ rest = (if retry
              then match kubernetes_NewForConfig w (cfg d) with
                   | None => [SecretGet (cfg d) namespace name]
                   | Some _ => []
                   end
              else [])
    ∧ (∀ err, primary = inl err → apierrors_IsNotFound err = false →
         r = ("", "", Some err))
    ∧ (∀ errI, retry = true → kubernetes_NewForConfig w (cfg d) = Some errI →
         r = ("", "", Some errI))
    ∧ (∀ err, retry = true → kubernetes_NewForConfig w (cfg d) = None →
         secrets_Get w (cfg d) namespace name = inl err →
         r = ("", "", Some err)).
Proof.
  intros Hclient primary retry. subst primary retry.
  unfold fetchAuthFromSecret. rewrite Hclient, call_bind.
  destruct (secrets_Get w (incfg d) namespace name) as [err|sec].
  - destruct (apierrors_IsNotFound err) eqn:Hnf.
    + destruct (kubernetes_NewForConfig w (cfg d)) as [errI|] eqn:Hsecond.
      * eexists _, _, _. split; [done|]. repeat split; simpl; congruence.
      * rewrite call_bind.
        destruct (secrets_Get w (cfg d) namespace name) as [err2|sec];
          (eexists _, _, _; split; [done|]; repeat split; simpl;
           [by rewrite <- app_assoc | congruence..]).
    + eexists _, _, _. split; [done|]. repeat split; simpl; congruence.
  - eexists _, _, _. split; [done|]. repeat split; simpl; congruence.
Qed.

Lemma fetchAuthFromSecret_scopes_witness :
  ∃ r s',
    fetchAuthFromSecret Sample.world Sample.d "forbidden" "default" Sample.cold
      = Returns r s'
    ∧ calls s' = [SecretGet Sample.in_cluster "default" "forbidden"]
    ∧ r = ("", "", Some (StatusError false "secrets is forbidden")).
Proof.
  destruct (fetchAuthFromSecret_scopes Sample.world Sample.d "forbidden" "default"
              Sample.cold eq_refl)
    as (r & s' & rest & Hrun & _ & Hcalls & Hrest & Hother & _).
  exists r, s'. split; [exact Hrun|]. split.
  - rewrite Hcalls, Hrest. reflexivity.
  - apply Hother; reflexivity.
Defined.

(** ** Trimming *)

Lemma list_ascii_app a b :
  list_ascii_of_string (a ++ b) = (list_ascii_of_string a ++ list_ascii_of_string b)%list.
Proof. induction a as [|x a IH]; simpl; [done|]. by rewrite <- IH. Qed.

Lemma string_of_list_app l k :
  string_of_list_ascii (l ++ k) = string_of_list_ascii l ++ string_of_list_ascii k.
Proof. induction l as [|x l IH]; simpl; [done|]. by rewrite IH. Qed.

Lemma rev_rev s : strings.rev (strings.rev s) = s.
Proof.
  unfold strings.rev.
  by rewrite list_ascii_of_string_of_list_ascii, rev_involutive,
    string_of_list_ascii_of_string.
Qed.

Lemma rev_append a b : strings.rev (a ++ b) = strings.rev b ++ strings.rev a.
Proof. unfold strings.rev. by rewrite list_ascii_app, rev_app_distr, string_of_list_app. Qed.

Lemma pad_snoc c n : pad c n ++ String c "" = String c (pad c n).
Proof.
  induction n as [|n IH]; [done|].
  change (String c (pad c n ++ String c "") = String c (String c (pad c n))).
  by rewrite IH.
Qed.

Lemma rev_pad c n : strings.rev (pad c n) = pad c n.
Proof.
  induction n as [|n IH]; [done|].
  change (pad c (S n)) with (String c "" ++ pad c n) at 1.
  rewrite rev_append, IH. apply pad_snoc.
Qed.

Lemma TrimLeft_spec s c :
  (∃ n, s = pad c n ++ strings.TrimLeft s c) ∧ ¬ starts_with c (strings.TrimLeft s c).
Proof.
  induction s as [|a s [[n IH] Hno]]; simpl.
  - split; [by exists 0%nat | by intros []].
  - destruct (Ascii.eqb_spec a c) as [->|Hne].
    + split; [|done]. exists (S n).
      change (String c s = String c (pad c n ++ strings.TrimLeft s c)). by rewrite <- IH.
    + split; [by exists 0%nat | done].
Qed.

Lemma TrimRight_spec s c :
  (∃ m, s = strings.TrimRight s c ++ pad c m) ∧ ¬ ends_with c (strings.TrimRight s c).
Proof.
  unfold strings.TrimRight, ends_with. rewrite rev_rev.
  destruct (TrimLeft_spec (strings.rev s) c) as [[m H] Hno]. split; [|done].
  exists m. rewrite <- (rev_rev s) at 1. rewrite H at 1. by rewrite rev_append, rev_pad.
Qed.

Lemma Trim_spec s c :
  (∃ n m, s = pad c n ++ strings.Trim s c ++ pad c m)
  ∧ ¬ starts_with c (strings.Trim s c)
  ∧ ¬ ends_with c (strings.Trim s c).
Proof.
  unfold strings.Trim.
  destruct (TrimLeft_spec s c) as [[n Hl] Hnl].
  destruct (TrimRight_spec (strings.TrimLeft s c) c) as [[m Hr] Hnr].
  split; [|split; [|done]].
  - exists n, m. by rewrite <- Hr.
  - intros H. apply Hnl. rewrite Hr.
    by destruct (strings.TrimRight (strings.TrimLeft s c) c).
Qed.

Lemma nonempty_true s : nonempty s = true ↔ s ≠ "".
Proof.
  unfold nonempty. destruct (String.eqb_spec s ""); split; try done; by intros [].
Qed.

Lemma nonempty_false s : nonempty s = false ↔ s = "".
Proof.
  unfold nonempty. destruct (String.eqb_spec s ""); split; done.
Qed.

(** ** The credential pair *)

(** [fetchAuthFromSecret] always returns; it leaves the disk alone and
    only ever reads the named secret. *)
Lemma fetchAuthFromSecret_returns (w : World) (d : Downloader) (name namespace : string)
    (s : State) :
  ∃ u p e s',
    fetchAuthFromSecret w d name namespace s = Returns (u, p, e) s'
    ∧ fs s' = fs s
    ∧ repoCache s' = repoCache s
    ∧ (∀ c, c ∈ calls s' → c ∈ calls s ∨ ∃ cf, c = SecretGet cf namespace name).
Proof.
  unfold fetchAuthFromSecret.
  destruct (kubernetes_NewForConfig w (incfg d)); [by eexists _, _, _, _; eauto|].
  rewrite call_bind.
  destruct (secrets_Get w (incfg d) namespace name) as [err|sec].
  - destruct (apierrors_IsNotFound err).
    + destruct (kubernetes_NewForConfig w (cfg d)).
      * eexists _, _, _, _. repeat split. trace_cases.
      * rewrite call_bind.
        destruct (secrets_Get w (cfg d) namespace name) as [err2|sec].
        -- eexists _, _, _, _. repeat split. trace_cases.
        -- destruct (credentials sec name namespace) as [[u p] e].
           eexists _, _, _, _. repeat split. trace_cases.
    + eexists _, _, _, _. repeat split. trace_cases.
  - destruct (credentials sec name namespace) as [[u p] e].
    eexists _, _, _, _. repeat split. trace_cases.
Qed.

(** C5, as amended.  Once the secret is read, through the primary scope
    or through the secondary one after a not-found, the two fields are
    taken from it with the newlines removed at both ends, the leading
    ones as well as the trailing ones.  When both results are non-empty
    they are the pair returned; when either is absent or empty the call
    fails with the error naming the namespace and the secret, and both
    strings returned are empty. *)
Theorem fetchAuthFromSecret_credentials (w : World) (d : Downloader)
    (name namespace : string) (s : State) (sec : Secret) :
  kubernetes_NewForConfig w (incfg d) = None →
  secrets_Get w (incfg d) namespace name = inr sec
  ∨ (∃ err, secrets_Get w (incfg d) namespace name = inl err
            ∧ apierrors_IsNotFound err = true
            ∧ kubernetes_NewForConfig w (cfg d) = None
            ∧ secrets_Get w (cfg d) namespace name = inr sec) →
  let field k := default "" (Data sec !! k) in
  let username := strings.Trim (field "username") strings.newline in
  let password := strings.Trim (field "password") strings.newline in
  ∃ r s',
    fetchAuthFromSecret w d name namespace s = Returns r s'
    ∧ (username ≠ "" → password ≠ "" → r = (username, password, None))
    ∧ (username = "" ∨ password = "" →
         r = ("", "", Some (incomplete_secret name namespace)))
    ∧ (∃ n m, field "username"
              = pad strings.newline n ++ username ++ pad strings.newline m)
    ∧ ¬ starts_with strings.newline username ∧ ¬ ends_with strings.newline username
    ∧ (∃ n m, field "password"
              = pad strings.newline n ++ password ++ pad strings.newline m)
    ∧ ¬ starts_with strings.newline password ∧ ¬ ends_with strings.newline password.
Proof.
  intros Hclient Hread field username password.
  assert (∃ s', fetchAuthFromSecret w d name namespace s
                = Returns (credentials sec name namespace) s') as [s' Hrun].
  { unfold fetchAuthFromSecret. rewrite Hclient, call_bind.
    destruct Hread as [->|(err & -> & -> & -> & Hsec)]; [by eexists|].
    rewrite call_bind, Hsec. by eexists. }
  exists (credentials sec name namespace), s'. split; [exact Hrun|].
  assert (credentials sec name namespace
          = if String.eqb username "" || String.eqb password ""
            then ("", "", Some (incomplete_secret name namespace))
            else (username, password, None)) as ->.
  { unfold credentials, username, password, field.
    by destruct (Data sec !! "username"), (Data sec !! "password"). }
  destruct (Trim_spec (field "username") strings.newline) as (Hu & Hus & Hue).
  destruct (Trim_spec (field "password") strings.newline) as (Hp & Hps & Hpe).
  repeat split; try done.
  - intros Hu' Hp'.
    destruct (String.eqb_spec username ""); [done|].
    by destruct (String.eqb_spec password "").
  - intros [->| ->]; [done|]. by rewrite orb_true_r.
Qed.

Lemma fetchAuthFromSecret_credentials_witness :
  ∃ s', fetchAuthFromSecret Sample.world Sample.d "global-cred" "default" Sample.cold
        = Returns ("alice", "a1", None) s'.
Proof.
  destruct (fetchAuthFromSecret_credentials Sample.world Sample.d "global-cred" "default"
              Sample.cold
              (Sample.secret_of [("username", "alice"); ("password", "a1")])
              eq_refl (or_introl eq_refl))
    as (r & s' & Hrun & Hpair & _).
  exists s'. rewrite Hrun. f_equal. apply Hpair; discriminate.
Defined.

(** The user name of this secret starts with a newline; removing the
    trailing newlines only would keep it, and the code removes it. *)
Lemma fetchAuthFromSecret_credentials_counterexample :
  secrets_Get Sample.world Sample.target "default" "regcred"
    = inr (Sample.secret_of
             [("username", Sample.line_feed ++ "bob" ++ Sample.line_feed);
              ("password", "pw" ++ Sample.line_feed)])
  ∧ strings.TrimRight (Sample.line_feed ++ "bob" ++ Sample.line_feed) strings.newline
    = Sample.line_feed ++ "bob"
  ∧ Sample.line_feed ++ "bob" ≠ "bob"
  ∧ ∃ s', fetchAuthFromSecret Sample.world Sample.d "regcred" "default" Sample.cold
          = Returns ("bob", "pw", None) s'.
Proof.
  split; [reflexivity|]. split; [reflexivity|]. split; [discriminate|].
  eexists. vm_compute. reflexivity.
Qed.

(** ** Requests without a source *)

(** C6, at the failing input.  A request whose source is nil goes
    through [downloadChartFromHTTP] untouched: the empty path comes back
    with a nil error, and nothing was done.  [pullOCIChart] refuses the
    same request with an error. *)
Theorem downloadChartFromHTTP_nil_source (w : World) (d : Downloader) (s : State) :
  downloadChartFromHTTP w d Sample.bare_request s = Returns ("", None) s
  ∧ downloadChartFromHTTP w d
      {| Name := "web"; Namespace := "default";
         Spec_Source := Some {| HTTP := None; OCI := None |} |} s
    = Returns ("", None) s
  ∧ (registry_NewClient w = None →
     pullOCIChart w d Sample.bare_request s
     = Returns (None, Some (errors_New "invalid chart Source, need OCI type")) s).
Proof.
  split; [done|]. split; [done|].
  intros H. unfold pullOCIChart. by rewrite H.
Qed.

Lemma downloadChartFromHTTP_nil_source_witness :
  downloadChartFromHTTP Sample.world Sample.d Sample.bare_request Sample.cold
    = Returns ("", None) Sample.cold
  ∧ pullOCIChart Sample.world Sample.d Sample.bare_request Sample.cold
    = Returns (None, Some (errors_New "invalid chart Source, need OCI type")) Sample.cold.
Proof.
  destruct (downloadChartFromHTTP_nil_source Sample.world Sample.d Sample.cold)
    as (H1 & _ & H2).
  split; [exact H1 | apply H2; reflexivity].
Defined.

(** ** The OCI pull *)

(** C7, as amended.  With the registry client built, a request whose
    OCI reference does not parse always fails, and the registry is never
    asked for anything.  Without a secret reference the failure is the
    parse error and the state is untouched.  With a secret reference the
    credentials are resolved before the reference is parsed: the secret
    store is read, an error of the resolution is the one returned, and
    the parse error is returned when the resolution succeeds. *)
Theorem pullOCIChart_unparsable (w : World) (d : Downloader) (hr : HelmRequest)
    (s : State) (src : ChartSource) (oci : ChartSourceOCI) (perr : error) :
  Spec_Source hr = Some src → OCI src = Some oci →
  registry_NewClient w = None →
  registry_ParseReference w (OCI_Repo oci) = inl perr →
  ∃ err s',
    pullOCIChart w d hr s = Returns (None, Some err) s'
    ∧ fs s' = fs s
    ∧ (∀ c, c ∈ calls s' → c ∈ calls s ∨ is_secret_read c)
    ∧ (OCI_SecretRef oci = "" → err = perr ∧ s' = s)
    ∧ (OCI_SecretRef oci ≠ "" →
       ∃ u p e,
         fetchAuthFromSecret w d (OCI_SecretRef oci) (GetNamespace hr) s
           = Returns (u, p, e) s'
         ∧ err = default perr e).
Proof.
  intros Hsrc Hoci Hclient Hparse.
  unfold pullOCIChart. rewrite Hclient, Hsrc. simpl. rewrite Hoci.
  destruct (nonempty (OCI_SecretRef oci)) eqn:Hsecret.
  - apply nonempty_true in Hsecret.
    destruct (fetchAuthFromSecret_returns w d (OCI_SecretRef oci) (GetNamespace hr) s)
      as (u & p & e & s' & Hrun & Hfs & _ & Hcalls).
    step Hrun.
    assert (∀ c, c ∈ calls s' → c ∈ calls s ∨ is_secret_read c) as Hreads.
    { intros c Hc. destruct (Hcalls c Hc) as [?|[cf ->]]; [by left | by right]. }
    destruct e as [e|].
    + exists e, s'. repeat split; try done. by eexists _, _, _.
    + rewrite Hparse. exists perr, s'. repeat split; try done. by eexists _, _, _.
  - apply nonempty_false in Hsecret. rewrite ret_bind, Hparse.
    exists perr, s. repeat split; auto. done.
Qed.

Lemma pullOCIChart_unparsable_witness :
  pullOCIChart Sample.world Sample.d (Sample.oci_request "not a reference" "") Sample.cold
  = Returns (None, Some (Foreign "invalid reference")) Sample.cold.
Proof.
  destruct (pullOCIChart_unparsable Sample.world Sample.d
              (Sample.oci_request "not a reference" "") Sample.cold
              _ _ (Foreign "invalid reference") eq_refl eq_refl eq_refl eq_refl)
    as (err & s' & Hrun & _ & _ & Hplain & _).
  destruct (Hplain eq_refl) as [-> ->]. exact Hrun.
Defined.

(** An unparsable reference that comes with a secret reference: the
    secret store is read twice before the reference is looked at. *)
Lemma pullOCIChart_unparsable_counterexample :
  registry_ParseReference Sample.world "not a reference" = inl (Foreign "invalid reference")
  ∧ ∃ s', pullOCIChart Sample.world Sample.d
            (Sample.oci_request "not a reference" "regcred") Sample.cold
          = Returns (None, Some (Foreign "invalid reference")) s'
      ∧ calls s' = [SecretGet Sample.in_cluster "default" "regcred";
                    SecretGet Sample.target "default" "regcred"].
Proof. split; [reflexivity|]. eexists. split; vm_compute; reflexivity. Qed.

(** ** Which files a computation may change *)

Lemma spares_ret {A} D (a : A) : spares D (mret a).
Proof. by intros s q. Qed.

Lemma spares_panic {A} D : spares D (@panic A).
Proof. by intros s q. Qed.

Lemma spares_gets {A} D (f : State → A) : spares D (gets f).
Proof. by intros s q. Qed.

Lemma spares_call D c : spares D (call c).
Proof. by intros s q. Qed.

Lemma spares_set_repoCache D f : spares D (modify (set_repoCache f)).
Proof. by intros s q. Qed.

Lemma spares_bind {A B} D (m : Go A) (k : A → Go B) :
  spares D m → (∀ a, spares D (k a)) → spares D (m ≫= k).
Proof.
  intros Hm Hk s q Hq HD. rewrite final_bind. specialize (Hm s q Hq HD).
  destruct (m s) as [a s'|s']; simpl in *; [|done].
  rewrite <- Hm. apply Hk; [|done]. by rewrite Hm.
Qed.


Create HintDb spares discriminated.

#[export] Hint Resolve spares_ret spares_panic spares_gets spares_call
  spares_set_repoCache : spares.

Ltac spares :=
  repeat first
    [ solve [auto with spares]
    | apply spares_bind; [|intros]
    | case_match ].

Section Spares.

Context (w : World).

Lemma spares_os_Stat D p : spares D (os_Stat w p).
Proof. unfold os_Stat. spares. Qed.

(** A directory is only made where nothing was. *)
Lemma spares_os_MkdirAll D p : spares D (os_MkdirAll w p).
Proof.
  intros s q [n Hq] _. unfold os_MkdirAll, gets, modify, mbind, mret, Go_bind, Go_ret.
  destruct (fs s !! p) as [[|]|] eqn:Hp; try done.
  destruct (os_mkdir_fault w p); [done|].
  simpl. apply lookup_insert_ne. congruence.
Qed.

Lemma spares_os_Remove p : spares (eq p) (os_Remove w p).
Proof.
  intros s q _ Hne. unfold os_Remove, gets, modify, mbind, mret, Go_bind, Go_ret.
  destruct (fs s !! p); [|done].
  destruct (os_remove_fault w p); [done|].
  simpl. by apply lookup_delete_ne.
Qed.

Lemma spares_ioutil_WriteFile p data : spares (eq p) (ioutil_WriteFile w p data).
Proof.
  intros s q _ Hne.
  unfold ioutil_WriteFile, gets, modify, mbind, mret, Go_bind, Go_ret.
  destruct (fs s !! p) as [[|]|];
    try done; destruct (os_write_fault w p) as [[e [n|]]|]; try done;
    simpl; by apply lookup_insert_ne.
Qed.

Lemma spares_SetBasicAuth D req u p : spares D (SetBasicAuth req u p).
Proof. unfold SetBasicAuth. spares. Qed.

Lemma spares_httpClient_Do D req : spares D (httpClient_Do w req).
Proof. unfold httpClient_Do. spares. Qed.

Hint Resolve spares_os_Stat spares_os_MkdirAll spares_os_Remove
  spares_ioutil_WriteFile spares_SetBasicAuth spares_httpClient_Do : spares.

Lemma spares_downloadFile url u p filepath :
  spares (eq filepath) (downloadFile w url u p filepath).
Proof. unfold downloadFile. spares. Qed.

Lemma spares_downloadFileFromEntry entry path filepath :
  spares (eq filepath) (downloadFileFromEntry w entry path filepath).
Proof. unfold downloadFileFromEntry. apply spares_downloadFile. Qed.

Lemma spares_getRepoInfo D d name ns : spares D (getRepoInfo w d name ns).
Proof. unfold getRepoInfo. spares. Qed.

Lemma spares_fetchAuthFromSecret D d name namespace :
  spares D (fetchAuthFromSecret w d name namespace).
Proof. unfold fetchAuthFromSecret. spares. Qed.

(** Looking before writing: a computation that may change [p] spares
    every existing path when it only runs after [os.Stat] has found
    [p] missing. *)
Lemma spares_unless_exists {A} p (hit miss : Go A) :
  spares nowhere hit → spares (eq p) miss →
  spares nowhere
    (os_Stat w p ≫= λ err, if negb (os_IsNotExist err) then hit else miss).
Proof.
  intros Hhit Hmiss s q Hq _.
  destruct (os_Stat_returns w p s) as (err & Hstat & Hno & _).
  rewrite final_bind, Hstat.
  destruct (os_IsNotExist err); simpl.
  - apply Hmiss; [done|]. intros <-. rewrite Hno in Hq by done. by destruct Hq.
  - apply Hhit; [done|]. unfold nowhere. tauto.
Qed.

End Spares.

#[export] Hint Resolve spares_os_Stat spares_os_MkdirAll spares_os_Remove
  spares_ioutil_WriteFile spares_SetBasicAuth spares_httpClient_Do
  spares_downloadFile spares_downloadFileFromEntry spares_getRepoInfo
  spares_fetchAuthFromSecret : spares.


Lemma spares_pullOCIChart (w : World) (d : Downloader) (hr : HelmRequest) :
  spares nowhere (pullOCIChart w d hr).
Proof. unfold pullOCIChart. spares. Qed.


(** ** Cached archives *)


(** ** A warm cache *)

Lemma HasPrefix_nonempty s prefix :
  strings.HasPrefix s prefix = true → prefix ≠ "" → s ≠ "".
Proof. destruct prefix, s; simpl; congruence. Qed.

Lemma os_Remove_returns (w : World) p s :
  ∃ err s', os_Remove w p s = Returns err s'
            ∧ calls s' = calls s ∧ repoCache s' = repoCache s.
Proof.
  unfold os_Remove, gets, modify, mbind, mret, Go_bind, Go_ret.
  destruct (fs s !! p); [|by eexists _, _].
  destruct (os_remove_fault w p); by eexists _, _.
Qed.

Lemma ioutil_WriteFile_returns (w : World) p data s :
  ∃ err s', ioutil_WriteFile w p data s = Returns err s' ∧ calls s' = calls s.
Proof.
  unfold ioutil_WriteFile, gets, modify, mbind, mret, Go_bind, Go_ret.
  destruct (fs s !! p) as [[|]|];
    try (by eexists _, _); destruct (os_write_fault w p) as [[e [n|]]|]; by eexists _, _.
Qed.

(** A request that can be built is sent, once, whatever comes back. *)
Lemma downloadFile_calls (w : World) url username password filepath s :
  http_NewRequest_err w "GET" url = None →
  ∃ err s', downloadFile w url username password filepath s = Returns err s'
    ∧ calls s' = (calls s ++ [HTTPDo (request_for url username password)])%list.
Proof.
  intros Hreq. rewrite downloadFile_response by done. simpl.
  destruct (http_RoundTrip w _) as [err|resp]; [by eexists _, _|].
  destruct (negb (StatusCode resp =? 200)); [by eexists _, _|].
  destruct (Body resp) as [err|buf]; [by eexists _, _|].
  destruct (ioutil_WriteFile_returns w filepath buf
              (record (HTTPDo (request_for url username password)) s))
    as (err & s' & -> & Hcalls).
  by eexists _, _.
Qed.


(** * Further properties of the package *)

(** ** Names and URLs *)

Lemma Split_append r t c :
  strings.Count r c = 0%nat →
  strings.Split (r ++ String c t) c = r :: strings.Split t c.
Proof.
  induction r as [|a r IH]; intros H.
  - change (strings.Split (String c t) c = "" :: strings.Split t c).
    simpl. by rewrite Ascii.eqb_refl.
  - simpl in H.
    change (strings.Split (String a (r ++ String c t)) c
            = String a r :: strings.Split t c).
    simpl. destruct (Ascii.eqb a c); [done|]. by rewrite IH.
Qed.

Lemma Split_segments s c seg :
  seg ∈ strings.Split s c → strings.Count seg c = 0%nat.
Proof.
  revert seg. induction s as [|a s IH]; simpl; intros seg H.
  - apply list_elem_of_singleton in H as ->. done.
  - destruct (Ascii.eqb a c) eqn:E.
    + apply elem_of_cons in H as [->|H]; [done | by apply IH].
    + destruct (strings.Split s c) as [|seg0 segs]; simpl in *.
      * apply list_elem_of_singleton in H as ->. simpl. by rewrite E.
      * apply elem_of_cons in H as [->|H].
        -- simpl. rewrite E. apply IH. by left.
        -- apply IH. by right.
Qed.

(** X1.  [getRepoAndChart] inverts the joining of a repository name and
    a chart name that hold no [/]: the two segments come back as they
    were, and every pair it returns other than its sentinel is such a
    pair. *)
Theorem getRepoAndChart_join (name r c : string) :
  (r, c) ≠ ("", "") →
  getRepoAndChart name = (r, c)
  ↔ name = r ++ "/" ++ c
    ∧ strings.Count r strings.slash = 0%nat
    ∧ strings.Count c strings.slash = 0%nat.
Proof.
  intros Hne. split.
  - unfold getRepoAndChart.
    destruct (strings.Split name strings.slash) as [|r' [|c' [|]]] eqn:S;
      intros [= <- <-]; try done.
    split; [by apply Split_pair in S|].
    split; apply (Split_segments name strings.slash); rewrite S.
    + by left.
    + right. by left.
  - intros (-> & Hr & Hc). unfold getRepoAndChart.
    change (r ++ "/" ++ c) with (r ++ String strings.slash c).
    by rewrite (Split_append r c strings.slash Hr), (Split_no_sep c strings.slash Hc).
Qed.

Lemma getRepoAndChart_join_witness :
  getRepoAndChart ("stable" ++ "/" ++ "nginx") = ("stable", "nginx").
Proof.
  apply getRepoAndChart_join; [discriminate|].
  split; [reflexivity|]. split; reflexivity.
Defined.

Lemma Count_append a b c :
  strings.Count (a ++ b) c = (strings.Count a c + strings.Count b c)%nat.
Proof.
  induction a as [|x a IH]; [done|].
  change (strings.Count (String x (a ++ b)) c
          = (strings.Count (String x a) c + strings.Count b c)%nat).
  simpl. destruct (Ascii.eqb x c); simpl; by rewrite IH.
Qed.

Lemma AfterLast_None s c :
  strings.AfterLast s c = None ↔ strings.Count s c = 0%nat.
Proof.
  induction s as [|a s IH]; simpl; [done|].
  destruct (strings.AfterLast s c) as [t|]; destruct (Ascii.eqb a c);
    split; try done; intros H.
  - assert (strings.Count s c = 0%nat) as H' by lia. by apply IH in H'.
  - by apply IH.
Qed.

Lemma AfterLast_Some s c t :
  strings.AfterLast s c = Some t →
  (∃ p, s = p ++ String c t) ∧ strings.Count t c = 0%nat.
Proof.
  revert t. induction s as [|a s IH]; simpl; intros t H; [done|].
  destruct (strings.AfterLast s c) as [t'|] eqn:E.
  - injection H as ->. destruct (IH t eq_refl) as [[p ->] Ht].
    split; [|done]. by exists (String a p).
  - destruct (Ascii.eqb_spec a c) as [->|]; [|done].
    injection H as ->. split; [by exists "" | by apply AfterLast_None].
Qed.

Lemma AfterLast_append p t c :
  strings.Count t c = 0%nat →
  strings.AfterLast (p ++ String c t) c = Some t.
Proof.
  intros Ht. induction p as [|a p IH].
  - change (strings.AfterLast (String c t) c = Some t). simpl.
    apply AfterLast_None in Ht. by rewrite Ht, Ascii.eqb_refl.
  - change (strings.AfterLast (String a (p ++ String c t)) c = Some t).
    simpl. by rewrite IH.
Qed.

(** X2.  [splitChartNameFromURL] returns the part of the URL after its
    last [/]: a URL without [/] is returned whole, the last segment of a
    longer URL is returned alone, and what is returned never holds a
    [/]. *)
Theorem splitChartNameFromURL_last_segment (url : string) :
  (strings.Count url strings.slash = 0%nat → splitChartNameFromURL url = url)
  ∧ (∀ prefix t, url = prefix ++ "/" ++ t → strings.Count t strings.slash = 0%nat →
       splitChartNameFromURL url = t)
  ∧ strings.Count (splitChartNameFromURL url) strings.slash = 0%nat.
Proof.
  unfold splitChartNameFromURL. split; [|split].
  - intros H. destruct url; [done|]. simpl (_ =? _)%nat.
    apply AfterLast_None in H. by rewrite H.
  - intros prefix t -> Ht.
    change (prefix ++ "/" ++ t) with (prefix ++ String strings.slash t).
    rewrite (AfterLast_append prefix t strings.slash Ht).
    by destruct prefix.
  - destruct url as [|a url]; [done|]. simpl (_ =? _)%nat. cbv iota.
    destruct (strings.AfterLast (String a url) strings.slash) as [t|] eqn:E.
    + by apply AfterLast_Some in E as [_ ?].
    + by apply AfterLast_None.
Qed.

Lemma splitChartNameFromURL_last_segment_witness :
  splitChartNameFromURL "https://files.example.com/pkg/app-2.0.tgz" = "app-2.0.tgz".
Proof.
  apply (proj1 (proj2 (splitChartNameFromURL_last_segment _))
           "https://files.example.com/pkg"); reflexivity.
Defined.

(** ** Invariants of the state *)

Lemma invariant_ret {A} I (a : A) : invariant I (mret a).
Proof. by intros s. Qed.

Lemma invariant_panic {A} I : invariant I (@panic A).
Proof. by intros s. Qed.

Lemma invariant_gets {A} I (f : State → A) : invariant I (gets f).
Proof. by intros s. Qed.

Lemma invariant_modify I f : (∀ s, I s → I (f s)) → invariant I (modify f).
Proof. intros H s. apply H. Qed.

Lemma invariant_bind {A B} I (m : Go A) (k : A → Go B) :
  invariant I m → (∀ a, invariant I (k a)) → invariant I (m ≫= k).
Proof.
  intros Hm Hk s Hs. rewrite final_bind. specialize (Hm s Hs).
  destruct (m s) as [a s'|s']; simpl in *; [by apply Hk | done].
Qed.

Create HintDb invariant discriminated.

#[export] Hint Resolve invariant_ret invariant_panic invariant_gets : invariant.

(** Walk through a computation; what is left are the updates of the
    state. *)
Ltac invariant :=
  repeat first
    [ solve [auto with invariant]
    | match goal with
      | |- @invariant _ ?I (modify ?f) => apply (invariant_modify I f)
      | |- @invariant _ ?I (?m ≫= ?k) => apply (invariant_bind I m k); [|intros]
      end
    | case_match ].

Section DiskBlind.

Context (w : World) (I : State → Prop).
Context (blind : ∀ s f, I s → I (set_fs f s)).

Lemma invariant_os_Stat p : invariant I (os_Stat w p).
Proof. unfold os_Stat. invariant. Qed.

Lemma invariant_os_MkdirAll p : invariant I (os_MkdirAll w p).
Proof. unfold os_MkdirAll. invariant. Qed.

Lemma invariant_os_Remove p : invariant I (os_Remove w p).
Proof. unfold os_Remove. invariant. Qed.

Lemma invariant_ioutil_WriteFile p data : invariant I (ioutil_WriteFile w p data).
Proof. unfold ioutil_WriteFile. invariant. Qed.

Lemma invariant_SetBasicAuth req u p : invariant I (SetBasicAuth req u p).
Proof. unfold SetBasicAuth. invariant. Qed.

End DiskBlind.

(** *** The calls a flow can make *)

Section CallsWithin.

Context (w : World) (l0 : list Call) (P : Call → Prop).

Lemma calls_within_blind s f :
  calls_within l0 P s → calls_within l0 P (set_fs f s).
Proof. done. Qed.

Lemma calls_within_cache s f :
  calls_within l0 P s → calls_within l0 P (set_repoCache f s).
Proof. done. Qed.

Lemma calls_within_record c s :
  P c → calls_within l0 P s → calls_within l0 P (record c s).
Proof.
  intros Hc H c' Hc'. apply elem_of_snoc in Hc' as [Hc'| ->]; [by apply H | by right].
Qed.

Lemma calls_within_call c : P c → invariant (calls_within l0 P) (call c).
Proof. intros Hc. apply invariant_modify. intros s. by apply calls_within_record. Qed.

End CallsWithin.

Ltac calls_within :=
  repeat first
    [ solve [auto with invariant]
    | match goal with
      | |- invariant _ (os_Stat _ _) =>
          apply invariant_os_Stat; apply calls_within_blind
      | |- invariant _ (os_MkdirAll _ _) =>
          apply invariant_os_MkdirAll; apply calls_within_blind
      | |- invariant _ (os_Remove _ _) =>
          apply invariant_os_Remove; apply calls_within_blind
      | |- invariant _ (ioutil_WriteFile _ _ _) =>
          apply invariant_ioutil_WriteFile; apply calls_within_blind
      | |- invariant _ (SetBasicAuth _ _ _) => apply invariant_SetBasicAuth
      | |- invariant _ (call _) => apply calls_within_call; exact I
      | |- invariant ?J (modify (set_repoCache ?f)) =>
          apply (invariant_modify J); intros ?; apply calls_within_cache
      | |- @invariant _ ?J (?m ≫= ?k) => apply (invariant_bind J m k); [|intros]
      end
    | case_match ].

Lemma calls_within_downloadFile w l0 P url u p filepath :
  (∀ req, P (HTTPDo req)) →
  invariant (calls_within l0 P) (downloadFile w url u p filepath).
Proof.
  intros HP. unfold downloadFile, httpClient_Do.
  repeat first
    [ match goal with
      | |- invariant _ (call _) => apply calls_within_call; apply HP
      end
    | progress calls_within ].
Qed.

Lemma calls_within_fetchAuthFromSecret w l0 P d name namespace :
  (∀ c ns n, P (SecretGet c ns n)) →
  invariant (calls_within l0 P) (fetchAuthFromSecret w d name namespace).
Proof.
  intros HP. unfold fetchAuthFromSecret.
  repeat first
    [ match goal with
      | |- invariant _ (call _) => apply calls_within_call; apply HP
      end
    | progress calls_within ].
Qed.

Lemma calls_within_start (P : Call → Prop) s : calls_within (calls s) P s.
Proof. intros c Hc. by left. Qed.

(** X3.  Each flow keeps to its own collaborators.  The repository flow
    only asks the metadata store and fetches over HTTP; the HTTP-source
    flow only reads secrets and fetches over HTTP; the OCI flow only
    reads secrets and talks to the registry. *)
Theorem flows_keep_apart (w : World) (d : Downloader) (s : State) (c : Call) :
  (∀ name version,
     c ∈ calls (final (downloadChart w d name version s)) →
     c ∈ calls s ∨ repository_call c)
  ∧ (∀ hr,
     c ∈ calls (final (downloadChartFromHTTP w d hr s)) →
     c ∈ calls s ∨ http_source_call c)
  ∧ (∀ hr,
     c ∈ calls (final (pullOCIChart w d hr s)) →
     c ∈ calls s ∨ oci_call c).
Proof.
  split; [|split].
  - intros name version.
    assert (invariant (calls_within (calls s) repository_call)
              (downloadChart w d name version)) as H.
    { unfold downloadChart, getRepoInfo, downloadFileFromEntry.
      repeat first
        [ match goal with
          | |- invariant _ (downloadFile _ _ _ _ _) =>
              apply calls_within_downloadFile; done
          end
        | progress calls_within ]. }
    apply (H s (calls_within_start _ s)).
  - intros hr.
    assert (invariant (calls_within (calls s) http_source_call)
              (downloadChartFromHTTP w d hr)) as H.
    { unfold downloadChartFromHTTP.
      repeat first
        [ match goal with
          | |- invariant _ (downloadFile _ _ _ _ _) =>
              apply calls_within_downloadFile; done
          | |- invariant _ (fetchAuthFromSecret _ _ _ _) =>
              apply calls_within_fetchAuthFromSecret; done
          end
        | progress calls_within ]. }
    apply (H s (calls_within_start _ s)).
  - intros hr.
    assert (invariant (calls_within (calls s) oci_call) (pullOCIChart w d hr)) as H.
    { unfold pullOCIChart.
      repeat first
        [ match goal with
          | |- invariant _ (fetchAuthFromSecret _ _ _ _) =>
              apply calls_within_fetchAuthFromSecret; done
          end
        | progress calls_within ]. }
    apply (H s (calls_within_start _ s)).
Qed.

Lemma flows_keep_apart_witness :
  SecretGet Sample.in_cluster "default" "regcred"
    ∉ calls (final (downloadChart Sample.world Sample.d "stable/nginx" "1.2.3" Sample.cold)).
Proof.
  intros H.
  destruct (flows_keep_apart Sample.world Sample.d Sample.cold
              (SecretGet Sample.in_cluster "default" "regcred")) as [Hrepo _].
  destruct (Hrepo _ _ H) as [Hold|Hnew].
  - by apply elem_of_nil in Hold.
  - exact Hnew.
Defined.

(** *** Properties that neither the disk nor the calls can break *)

Section CallBlind.

Context (w : World) (I : State → Prop).
Context (blind : ∀ s f, I s → I (set_fs f s)).
Context (logged : ∀ s c, I s → I (record c s)).

Lemma invariant_call c : invariant I (call c).
Proof. apply invariant_modify. intros s. apply logged. Qed.

Hint Resolve invariant_call invariant_os_Stat invariant_os_MkdirAll
  invariant_os_Remove invariant_ioutil_WriteFile invariant_SetBasicAuth : invariant.

Lemma invariant_httpClient_Do req : invariant I (httpClient_Do w req).
Proof. unfold httpClient_Do. invariant. Qed.

Hint Resolve invariant_httpClient_Do : invariant.

Lemma invariant_downloadFile url u p filepath :
  invariant I (downloadFile w url u p filepath).
Proof. unfold downloadFile. invariant. Qed.

Lemma invariant_downloadFileFromEntry entry path filepath :
  invariant I (downloadFileFromEntry w entry path filepath).
Proof. unfold downloadFileFromEntry. apply invariant_downloadFile. Qed.

Lemma invariant_fetchAuthFromSecret d name namespace :
  invariant I (fetchAuthFromSecret w d name namespace).
Proof. unfold fetchAuthFromSecret. invariant. Qed.

Hint Resolve invariant_downloadFile invariant_fetchAuthFromSecret : invariant.

Lemma invariant_downloadChartFromHTTP d hr :
  invariant I (downloadChartFromHTTP w d hr).
Proof. unfold downloadChartFromHTTP. invariant. Qed.

Lemma invariant_pullOCIChart d hr : invariant I (pullOCIChart w d hr).
Proof. unfold pullOCIChart. invariant. Qed.

End CallBlind.

(** ** The repository cache *)

Lemma coherent_getRepoInfo (w : World) (d : Downloader) (name : string) :
  invariant (coherent w d) (getRepoInfo w d name (ns d)).
Proof.
  intros s Hs. unfold getRepoInfo, gets, call, modify, mbind, mret, Go_bind, Go_ret.
  destruct (repoCache s !! name) as [hit|] eqn:Hname; [done|].
  destruct (chartrepo_GetChartRepo w name (ns d) (incfg d)) as [err|entry] eqn:Hget;
    [done|].
  intros name' entry'. simpl. rewrite lookup_insert.
  case_decide as Heq; [|by apply Hs].
  intros [= <-]. by rewrite <- Heq.
Qed.

(** X4.  The repository cache only ever holds answers of the metadata
    store: when every cached entry is what the store answers for the
    downloader's namespace, this still holds after a resolution through
    the repository flow, however it ends.  The HTTP-source flow and the
    OCI flow leave the cache as it is. *)
Theorem repoCache_coherent (w : World) (d : Downloader) (s : State) :
  coherent w d s →
  (∀ name version, coherent w d (final (downloadChart w d name version s)))
  ∧ (∀ hr, repoCache (final (downloadChartFromHTTP w d hr s)) = repoCache s)
  ∧ (∀ hr, repoCache (final (pullOCIChart w d hr s)) = repoCache s).
Proof.
  intros Hs. split; [|split].
  - intros name version.
    assert (invariant (coherent w d) (downloadChart w d name version)) as H; [|by apply H].
    unfold downloadChart.
    repeat first
      [ match goal with
        | |- invariant _ (getRepoInfo _ _ _ _) => apply coherent_getRepoInfo
        | |- invariant _ (os_Stat _ _) => by apply invariant_os_Stat
        | |- invariant _ (os_MkdirAll _ _) => by apply invariant_os_MkdirAll
        | |- invariant _ (call _) => by apply invariant_call
        | |- invariant _ (downloadFileFromEntry _ _ _ _) =>
            by apply invariant_downloadFileFromEntry
        end
      | progress invariant ].
  - intros hr.
    by apply (invariant_downloadChartFromHTTP w (λ s', repoCache s' = repoCache s)).
  - intros hr.
    by apply (invariant_pullOCIChart w (λ s', repoCache s' = repoCache s)).
Qed.

Lemma repoCache_coherent_witness :
  repoCache (final (downloadChart Sample.world Sample.d "stable/nginx" "1.2.3" Sample.cold))
    !! "stable"
  = Some {| URL := "https://charts.example.com"; Username := ""; Password := "" |}
  ∧ coherent Sample.world Sample.d
      (final (downloadChart Sample.world Sample.d "stable/nginx" "1.2.3" Sample.cold)).
Proof.
  split; [vm_compute; reflexivity|].
  apply repoCache_coherent. intros name entry H. simpl in H.
  by rewrite lookup_empty in H.
Defined.

(** X5.  A repository looked up with success is cached under its name
    alone: every later lookup of that name, under any namespace, is
    answered from the cache without a call and without a change of
    state.  A failed lookup caches nothing.  One lookup makes at most
    one call. *)
Theorem getRepoInfo_caches (w : World) (d : Downloader) (name ns : string) (s : State) :
  ∃ r s1,
    getRepoInfo w d name ns s = Returns r s1
    ∧ fs s1 = fs s
    ∧ (calls s1 = calls s
       ∨ calls s1 = (calls s ++ [MetadataGetChartRepo name ns (incfg d)])%list)
    ∧ match r with
      | inr entry =>
          ∀ ns', getRepoInfo w d name ns' s1 = Returns (inr entry) s1
      | inl err =>
          repoCache s1 = repoCache s ∧ repoCache s1 !! name = None
      end.
Proof.
  destruct (repoCache s !! name) as [hit|] eqn:Hname.
  - exists (inr hit), s. rewrite (getRepoInfo_hit w d name ns s hit Hname).
    repeat split; [by left|].
    intros ns'. by apply getRepoInfo_hit.
  - rewrite (getRepoInfo_miss w d name ns s Hname). simpl.
    destruct (chartrepo_GetChartRepo w name ns (incfg d)) as [err|entry].
    + eexists _, _. repeat split; [by right | done].
    + eexists _, _. repeat split; [by right|].
      intros ns'. apply getRepoInfo_hit. simpl. apply lookup_insert_eq.
Qed.

(** ** What is returned *)

Lemma yields_ret {A} (Q : A → Prop) (a : A) : Q a → yields Q (mret a).
Proof. intros H s a' s' [= <- _]. done. Qed.

Lemma yields_panic {A} (Q : A → Prop) : yields Q panic.
Proof. intros s a s' H. done. Qed.

Lemma yields_bind {A B} (Q : B → Prop) (m : Go A) (k : A → Go B) :
  (∀ a, yields Q (k a)) → yields Q (m ≫= k).
Proof.
  intros Hk s b s' H. unfold mbind, Go_bind in H.
  destruct (m s) as [a s1|s1]; [by apply (Hk a s1 b s') | done].
Qed.

Ltac yields :=
  repeat first
    [ match goal with
      | |- @yields _ ?Q (mret ?a) => apply (yields_ret Q a)
      | |- @yields _ ?Q panic => apply (yields_panic Q)
      | |- @yields _ ?Q (?m ≫= ?k) => apply (yields_bind Q m k); intros
      end
    | case_match ].

Lemma ChartsDir_path_nonempty (rest : string) : ChartsDir ++ rest ≠ "".
Proof. discriminate. Qed.

(** X6.  [downloadChart] never returns half a result: a path comes
    without an error and is not empty, and an error comes with the empty
    path. *)
Theorem downloadChart_path_xor_error (w : World) (d : Downloader) (name version : string)
    (s s' : State) (p : string) (e : option error) :
  downloadChart w d name version s = Returns (p, e) s' →
  match e with
  | None => p ≠ ""
  | Some _ => p = ""
  end.
Proof.
  assert (yields path_xor_error (downloadChart w d name version)) as H.
  { unfold downloadChart. yields; simpl; try done; apply ChartsDir_path_nonempty. }
  intros Hrun. apply (H s (p, e) s' Hrun).
Qed.

Lemma downloadChart_path_xor_error_witness :
  "/tmp/helm-charts/stable-abc-nginx-1.2.3.tgz" ≠ "".
Proof.
  apply (downloadChart_path_xor_error Sample.world Sample.d "stable/nginx" "1.2.3"
           Sample.cold
           (final (downloadChart Sample.world Sample.d "stable/nginx" "1.2.3" Sample.cold))
           "/tmp/helm-charts/stable-abc-nginx-1.2.3.tgz" None).
  vm_compute. reflexivity.
Defined.

(** ** The HTTP-source flow, step by step *)

Lemma destination_not_ChartsDir (rest : string) : ChartsDir ++ "/" ++ rest ≠ ChartsDir.
Proof. discriminate. Qed.

Section HTTPSteps.

Context (w : World).

(** The cache directory step, seen from the other paths. *)
Lemma cache_dir_step_elsewhere s :
  is_Some (fs s !! ChartsDir) ∨ os_mkdir_fault w ChartsDir = None →
  ∃ s0,
    (∀ B (k : option error → Go B),
       (os_Stat w ChartsDir ≫= λ err,
          (if os_IsNotExist err then os_MkdirAll w ChartsDir else mret None) ≫= k) s
       = k None s0)
    ∧ repoCache s0 = repoCache s ∧ calls s0 = calls s
    ∧ (∀ q, q ≠ ChartsDir → fs s0 !! q = fs s !! q).
Proof.
  intros H. destruct (os_Stat_returns w ChartsDir s) as (err & Hstat & Hno & Hyes).
  destruct (os_IsNotExist err) eqn:E.
  - specialize (Hno eq_refl). destruct H as [[n Hn]|Hmk]; [congruence|].
    exists (set_fs (insert ChartsDir Dir) s).
    split; [|repeat split].
    + intros B k. step Hstat. rewrite E.
      unfold os_MkdirAll, gets, modify, mbind, mret, Go_bind, Go_ret.
      by rewrite Hno, Hmk.
    + intros q Hq. simpl. by apply lookup_insert_ne.
  - exists s. split; [|by repeat split].
    intros B k. step Hstat. by rewrite E, ret_bind.
Qed.

(** An old file at the destination is removed, whatever comes next. *)
Lemma remove_if_found p s :
  ∃ s1,
    (∀ B (k : Go B),
       (os_Stat w p ≫= λ err,
          (if negb (os_IsNotExist err) then os_Remove w p;; mret tt else mret tt)
            ≫= λ _, k) s
       = k s1)
    ∧ calls s1 = calls s ∧ repoCache s1 = repoCache s
    ∧ (∀ q, q ≠ p → fs s1 !! q = fs s !! q)
    ∧ (fs s1 !! p = fs s !! p ∨ fs s1 !! p = None)
    ∧ (os_remove_fault w p = false → fs s1 !! p = None).
Proof.
  destruct (os_Stat_returns w p s) as (err & Hstat & Hno & _).
  destruct (os_IsNotExist err) eqn:E.
  - exists s. split; [|repeat split; auto].
    intros B k. step Hstat. by rewrite E.
  - destruct (fs s !! p) as [n|] eqn:Hp.
    + destruct (os_remove_fault w p) eqn:Hfault.
      * exists s. split; [|repeat split; auto; done].
        intros B k. step Hstat. rewrite E. simpl.
        unfold os_Remove, gets, modify, mbind, mret, Go_bind, Go_ret.
        by rewrite Hp, Hfault.
      * exists (set_fs (delete p) s). split; [|repeat split].
        -- intros B k. step Hstat. rewrite E. simpl.
           unfold os_Remove, gets, modify, mbind, mret, Go_bind, Go_ret.
           by rewrite Hp, Hfault.
        -- intros q Hq. simpl. by apply lookup_delete_ne.
        -- right. simpl. apply lookup_delete_eq.
        -- intros _. simpl. apply lookup_delete_eq.
    + exists s. split; [|repeat split; auto].
      intros B k. step Hstat. rewrite E. simpl.
      unfold os_Remove, gets, modify, mbind, mret, Go_bind, Go_ret.
      by rewrite Hp.
Qed.

End HTTPSteps.

(** X7.  The URL of an HTTP source is checked in two places.  An empty
    URL is refused at once, with nothing done.  A URL that starts with
    neither [http://] nor [https://] is refused only at the end: by then
    an old file at the destination has been removed, and the destination
    path is returned together with the error, though nothing was
    fetched. *)
Theorem downloadChartFromHTTP_url_checks (w : World) (d : Downloader) (hr : HelmRequest)
    (s : State) (src : ChartSource) (http : ChartSourceHTTP) :
  Spec_Source hr = Some src → HTTP src = Some http →
  (HTTP_URL http = "" →
     downloadChartFromHTTP w d hr s
     = Returns ("", Some (errors_New "helmrequest spec source http url not found")) s)
  ∧ (HTTP_URL http ≠ "" →
     strings.HasPrefix (HTTP_URL http) "http://"
       || strings.HasPrefix (HTTP_URL http) "https://" = false →
     HTTP_SecretRef http = "" →
     is_Some (fs s !! ChartsDir) ∨ os_mkdir_fault w ChartsDir = None →
     ∃ s',
       downloadChartFromHTTP w d hr s
       = Returns (http_destination hr http,
                  Some (errors_New
                    "helmrequest spec source http url does not start with HTTP or HTTPS")) s'
       ∧ http_destination hr http ≠ ""
       ∧ calls s' = calls s
       ∧ (os_remove_fault w (http_destination hr http) = false →
          fs s' !! http_destination hr http = None)).
Proof.
  intros Hsrc Hhttp. unfold downloadChartFromHTTP. rewrite Hsrc. simpl. rewrite Hhttp.
  split.
  - intros ->. done.
  - intros Hurl%nonempty_true Hscheme Hsecret Hdir. rewrite Hurl.
    destruct (cache_dir_step_elsewhere w s Hdir) as (s0 & -> & _ & Hcalls0 & _).
    fold (http_destination hr http).
    destruct (remove_if_found w (http_destination hr http) s0)
      as (s1 & -> & Hcalls1 & _ & _ & _ & Hgone).
    rewrite Hsecret. simpl. rewrite ret_bind, Hscheme.
    exists s1. split; [done|]. split; [apply ChartsDir_path_nonempty|].
    split; [congruence | done].
Qed.

Lemma downloadChartFromHTTP_url_checks_witness :
  ∃ s', downloadChartFromHTTP Sample.world Sample.d
          (Sample.http_request "ftp://files.example.com/pkg/app-2.0.tgz" "") Sample.warm
        = Returns ("/tmp/helm-charts/web-app-2.0.tgz",
                   Some (errors_New
                     "helmrequest spec source http url does not start with HTTP or HTTPS")) s'
        ∧ fs s' !! "/tmp/helm-charts/web-app-2.0.tgz" = None.
Proof.
  destruct (downloadChartFromHTTP_url_checks Sample.world Sample.d
              (Sample.http_request "ftp://files.example.com/pkg/app-2.0.tgz" "")
              Sample.warm _ _ eq_refl eq_refl) as [_ H].
  destruct H as (s' & Hrun & _ & _ & Hgone); try reflexivity.
  - discriminate.
  - left. eexists. reflexivity.
  - exists s'. split; [exact Hrun | apply Hgone; reflexivity].
Defined.

(** X8.  A fetch that succeeds puts the body at the destination, which
    is made of the request's name and the last segment of the URL, and
    returns that path; the one call made is the anonymous GET of the
    URL. *)
Theorem downloadChartFromHTTP_fetches (w : World) (d : Downloader) (hr : HelmRequest)
    (s : State) (src : ChartSource) (http : ChartSourceHTTP)
    (resp : Response) (body : list Byte.byte) :
  Spec_Source hr = Some src → HTTP src = Some http →
  strings.HasPrefix (HTTP_URL http) "http://"
    || strings.HasPrefix (HTTP_URL http) "https://" = true →
  HTTP_SecretRef http = "" →
  is_Some (fs s !! ChartsDir) ∨ os_mkdir_fault w ChartsDir = None →
  fs s !! http_destination hr http ≠ Some Dir →
  os_write_fault w (http_destination hr http) = None →
  http_NewRequest_err w "GET" (HTTP_URL http) = None →
  http_RoundTrip w (request_for (HTTP_URL http) "" "") = inr resp →
  StatusCode resp = 200 → Body resp = inr body →
  ∃ s',
    downloadChartFromHTTP w d hr s = Returns (http_destination hr http, None) s'
    ∧ fs s' !! http_destination hr http = Some (File body)
    ∧ calls s' = (calls s ++ [HTTPDo (request_for (HTTP_URL http) "" "")])%list
    ∧ (∀ q, q ≠ http_destination hr http → q ≠ ChartsDir → fs s' !! q = fs s !! q).
Proof.
  intros Hsrc Hhttp Hscheme Hsecret Hdir Hnodir Hwrite Hreq Hresp Hcode Hbody.
  assert (HTTP_URL http ≠ "") as Hurl%nonempty_true.
  { apply orb_prop in Hscheme as [H|H]; by apply HasPrefix_nonempty in H. }
  unfold downloadChartFromHTTP. rewrite Hsrc. simpl. rewrite Hhttp, Hurl.
  destruct (cache_dir_step_elsewhere w s Hdir) as (s0 & -> & _ & Hcalls0 & Hfs0).
  fold (http_destination hr http).
  destruct (remove_if_found w (http_destination hr http) s0)
    as (s1 & -> & Hcalls1 & _ & Hfs1 & Hdest & _).
  rewrite Hsecret. simpl. rewrite ret_bind, Hscheme.
  assert (fs s1 !! http_destination hr http ≠ Some Dir) as Hnodir1.
  { destruct Hdest as [->| ->]; [|done].
    rewrite Hfs0; [done | apply destination_not_ChartsDir]. }
  unfold mbind at 1, Go_bind at 1.
  rewrite (downloadFile_response w _ "" "" _ s1 Hreq). simpl.
  rewrite Hresp, Hcode, Hbody. simpl.
  unfold ioutil_WriteFile, gets, modify, mbind, mret, Go_bind, Go_ret. simpl.
  rewrite Hwrite.
  eexists. split.
  - destruct (fs s1 !! http_destination hr http) as [[|]|]; try done.
  - simpl. split; [apply lookup_insert_eq|]. split; [congruence|].
    intros q Hq Hq'. rewrite lookup_insert_ne by done. rewrite Hfs1 by done.
    by apply Hfs0.
Qed.

Lemma downloadChartFromHTTP_fetches_witness :
  ∃ s', downloadChartFromHTTP Sample.world Sample.d
          (Sample.http_request "https://files.example.com/pkg/app-2.0.tgz" "") Sample.cold
        = Returns ("/tmp/helm-charts/web-app-2.0.tgz", None) s'
        ∧ fs s' !! "/tmp/helm-charts/web-app-2.0.tgz" = Some (File [Byte.x1f; Byte.x8b]).
Proof.
  destruct (downloadChartFromHTTP_fetches Sample.world Sample.d
              (Sample.http_request "https://files.example.com/pkg/app-2.0.tgz" "")
              Sample.cold _ _
              {| StatusCode := 200; Status := "200 OK"; Body := inr [Byte.x1f; Byte.x8b] |}
              [Byte.x1f; Byte.x8b] eq_refl eq_refl)
    as (s' & Hrun & Hfile & _); try reflexivity.
  - right. reflexivity.
  - discriminate.
  - exists s'. split; [exact Hrun | exact Hfile].
Defined.

(** X9.  A URL that [http.NewRequest] refuses brings the whole
    HTTP-source flow down: the flow panics instead of returning an
    error, and it does so after it has removed the old file at the
    destination. *)
Theorem downloadChartFromHTTP_panics (w : World) (d : Downloader) (hr : HelmRequest)
    (s : State) (src : ChartSource) (http : ChartSourceHTTP) (e : error) :
  Spec_Source hr = Some src → HTTP src = Some http →
  strings.HasPrefix (HTTP_URL http) "http://"
    || strings.HasPrefix (HTTP_URL http) "https://" = true →
  HTTP_SecretRef http = "" →
  is_Some (fs s !! ChartsDir) ∨ os_mkdir_fault w ChartsDir = None →
  http_NewRequest_err w "GET" (HTTP_URL http) = Some e →
  ∃ s',
    downloadChartFromHTTP w d hr s = Panics s'
    ∧ calls s' = calls s
    ∧ (os_remove_fault w (http_destination hr http) = false →
       fs s' !! http_destination hr http = None).
Proof.
  intros Hsrc Hhttp Hscheme Hsecret Hdir Hreq.
  assert (HTTP_URL http ≠ "") as Hurl%nonempty_true.
  { apply orb_prop in Hscheme as [H|H]; by apply HasPrefix_nonempty in H. }
  unfold downloadChartFromHTTP. rewrite Hsrc. simpl. rewrite Hhttp, Hurl.
  destruct (cache_dir_step_elsewhere w s Hdir) as (s0 & -> & _ & Hcalls0 & _).
  fold (http_destination hr http).
  destruct (remove_if_found w (http_destination hr http) s0)
    as (s1 & -> & Hcalls1 & _ & _ & _ & Hgone).
  rewrite Hsecret. simpl. rewrite ret_bind, Hscheme.
  exists s1. split; [|split; [congruence | done]].
  apply bind_panics. unfold downloadFile, http_NewRequest. by rewrite Hreq.
Qed.

Lemma downloadChartFromHTTP_panics_witness :
  ∃ s', downloadChartFromHTTP Sample.world Sample.d
          (Sample.http_request "http://[::1" "") Sample.cold = Panics s'.
Proof.
  destruct (downloadChartFromHTTP_panics Sample.world Sample.d
              (Sample.http_request "http://[::1" "") Sample.cold _ _
              (Foreign "parse http://[::1: missing ']' in host") eq_refl eq_refl)
    as (s' & Hrun & _); try reflexivity.
  - right. reflexivity.
  - exists s'. exact Hrun.
Defined.

(** ** The repository flow, step by step *)

Section RepositorySteps.

Context (w : World) (d : Downloader).

Lemma os_Stat_finds p s :
  stat_finds w s p ↔ ∃ err, os_Stat w p s = Returns err s ∧ os_IsNotExist err = false.
Proof.
  unfold stat_finds, os_Stat, gets, mbind, mret, Go_bind, Go_ret.
  destruct (os_stat_fault w p) as [msg|].
  - split; [by eexists | by left].
  - destruct (fs s !! p) as [n|]; split.
    + by eexists.
    + intros _. right. by eexists.
    + intros [?|[? ?]]; done.
    + intros (err & [= <-] & ?). done.
Qed.

Lemma stat_finds_fs p s s' : fs s' = fs s → stat_finds w s p → stat_finds w s' p.
Proof. unfold stat_finds. by intros ->. Qed.

(** The flow up to the point where the destination is known. *)
Lemma downloadChart_resolved name version s repoName chart entry cv path more
    seg0 fileName segs :
  getRepoAndChart name = (repoName, chart) →
  (repoName, chart) ≠ ("", "") →
  stat_finds w s ChartsDir ∨ os_mkdir_fault w ChartsDir = None →
  repoCache s !! repoName = Some entry
  ∨ (repoCache s !! repoName = None
     ∧ chartrepo_GetChartRepo w repoName (ns d) (incfg d) = inr entry) →
  chartrepo_GetChart w (strings.ToLower chart ++ "." ++ repoName) version
    (ns d) (incfg d) = inr cv →
  URLs cv = path :: more →
  strings.Split path strings.slash = seg0 :: fileName :: segs →
  let filePath := ChartsDir ++ "/" ++ repoName ++ "-" ++ Digest cv ++ "-" ++ fileName in
  ∃ s2 l,
    downloadChart w d name version s
    = (os_Stat w filePath ≫= λ err,
         if negb (os_IsNotExist err) then mret (filePath, None)
         else downloadFileFromEntry w entry path filePath ≫= λ err,
                match err with
                | Some err => mret ("", Some err)
                | None => mret (filePath, None)
                end) s2
    ∧ calls s2
      = (calls s ++ l ++
         [MetadataGetChart (strings.ToLower chart ++ "." ++ repoName) version
            (ns d) (incfg d)])%list
    ∧ (l = [] ∨ l = [MetadataGetChartRepo repoName (ns d) (incfg d)])
    ∧ (repoCache s !! repoName = Some entry → l = [])
    ∧ repoCache s2 !! repoName = Some entry
    ∧ (∀ q, q ≠ ChartsDir → fs s2 !! q = fs s !! q)
    ∧ (stat_finds w s ChartsDir → fs s2 = fs s)
    ∧ stat_finds w s2 ChartsDir.
Proof.
  intros Hname Hparse Hdir Hrepo Hchart Hurls Hsplit filePath.
  unfold downloadChart. rewrite Hname.
  destruct (String.eqb repoName "" && String.eqb chart "") eqn:E.
  { apply andb_prop in E as [->%String.eqb_eq ->%String.eqb_eq]. done. }
  destruct (os_Stat_returns w ChartsDir s) as (err & Hstat & Hno & Hyes).
  assert (∃ s0,
            (if os_IsNotExist err then os_MkdirAll w ChartsDir else mret None) s
            = Returns None s0
            ∧ repoCache s0 = repoCache s ∧ calls s0 = calls s
            ∧ (∀ q, q ≠ ChartsDir → fs s0 !! q = fs s !! q)
            ∧ (stat_finds w s ChartsDir → s0 = s)
            ∧ stat_finds w s0 ChartsDir)
    as (s0 & Hmk & Hcache0 & Hcalls0 & Hfs0 & Hsame0 & Hdir0).
  { destruct (os_IsNotExist err) eqn:Enot.
    - assert (¬ stat_finds w s ChartsDir) as Hnot.
      { intros (err' & Hstat' & Hfound)%os_Stat_finds. congruence. }
      destruct Hdir as [?|Hmk]; [done|]. specialize (Hno eq_refl).
      exists (set_fs (insert ChartsDir Dir) s). split; [|repeat split].
      + unfold os_MkdirAll, gets, modify, mbind, mret, Go_bind, Go_ret.
        by rewrite Hno, Hmk.
      + intros q Hq. simpl. by apply lookup_insert_ne.
      + done.
      + right. simpl. rewrite lookup_insert_eq. by eexists.
    - exists s. repeat split; try done. apply os_Stat_finds. eauto. }
  step Hstat. step Hmk. rewrite <- Hcache0 in Hrepo.
  destruct (getRepoInfo_resolves w d repoName (ns d) s0 entry Hrepo)
    as (s1 & l & Hinfo & Hfs1 & Hcalls1 & Hl).
  step Hinfo. rewrite call_bind, Hchart, Hurls, Hsplit. fold filePath.
  eexists _, l. split; [reflexivity|]. simpl.
  assert (repoCache s1 !! repoName = Some entry) as Hcached.
  { destruct Hrepo as [Hhit|[Hmiss Hget]].
    - rewrite (getRepoInfo_hit w d repoName (ns d) s0 entry Hhit) in Hinfo.
      by injection Hinfo as <-.
    - rewrite (getRepoInfo_miss w d repoName (ns d) s0 Hmiss), Hget in Hinfo.
      injection Hinfo as <-. simpl. apply lookup_insert_eq. }
  repeat split.
  - by rewrite Hcalls1, Hcalls0, <- app_assoc.
  - done.
  - intros Hhit. rewrite <- Hcache0 in Hhit.
    rewrite (getRepoInfo_hit w d repoName (ns d) s0 entry Hhit) in Hinfo.
    injection Hinfo as <-. rewrite Hcalls0 in Hcalls1.
    by apply app_inv_head with (calls s); rewrite app_nil_r.
  - done.
  - intros q Hq. rewrite Hfs1. by apply Hfs0.
  - intros Hthere. rewrite Hfs1. by rewrite (Hsame0 Hthere).
  - by apply (stat_finds_fs ChartsDir s0).
Qed.

(** A transfer that reports no error has sent its request and has left
    a file at the destination. *)
Lemma downloadFile_done url username password filepath s s' :
  downloadFile w url username password filepath s = Returns None s' →
  (∃ body, fs s' = <[filepath := File body]> (fs s))
  ∧ repoCache s' = repoCache s
  ∧ calls s' = (calls s ++ [HTTPDo (request_for url username password)])%list.
Proof.
  destruct (http_NewRequest_err w "GET" url) as [e|] eqn:Hreq.
  - unfold downloadFile, http_NewRequest. rewrite Hreq.
    by destruct (nonempty username && nonempty password).
  - rewrite (downloadFile_response w url username password filepath s Hreq). simpl.
    destruct (http_RoundTrip w _) as [err|resp]; [done|].
    destruct (negb (StatusCode resp =? 200)); [done|].
    destruct (Body resp) as [err|buf]; [done|].
    unfold ioutil_WriteFile, gets, modify, mbind, mret, Go_bind, Go_ret. simpl.
    destruct (fs s !! filepath) as [[|]|];
      try done; destruct (os_write_fault w filepath) as [[e [n|]]|]; try done;
      intros [= <-]; simpl; eauto.
Qed.

Lemma downloadFileFromEntry_done entry path filepath s s' :
  downloadFileFromEntry w entry path filepath s = Returns None s' →
  (∃ body, fs s' = <[filepath := File body]> (fs s))
  ∧ repoCache s' = repoCache s
  ∧ ∃ req, calls s' = (calls s ++ [HTTPDo req])%list.
Proof.
  unfold downloadFileFromEntry. intros H.
  apply downloadFile_done in H as (Hfs & Hcache & Hcalls). eauto.
Qed.

End RepositorySteps.

(** X10.  Resolution through the repository flow is idempotent.  When
    the metadata store resolves the chart and a first call has returned
    a path, a second call with the same name and version returns the
    same path, leaves the disk as the first call left it, and makes one
    call only, the chart lookup: the repository comes from the cache and
    nothing is fetched. *)
Theorem downloadChart_twice (w : World) (d : Downloader) (name version : string)
    (s s1 : State) (p : string)
    (repoName chart : string) (entry : repo_Entry) (cv : ChartVersion)
    (path seg0 fileName : string) (more segs : list string) :
  getRepoAndChart name = (repoName, chart) →
  (repoName, chart) ≠ ("", "") →
  stat_finds w s ChartsDir ∨ os_mkdir_fault w ChartsDir = None →
  repoCache s !! repoName = Some entry
  ∨ (repoCache s !! repoName = None
     ∧ chartrepo_GetChartRepo w repoName (ns d) (incfg d) = inr entry) →
  chartrepo_GetChart w (strings.ToLower chart ++ "." ++ repoName) version
    (ns d) (incfg d) = inr cv →
  URLs cv = path :: more →
  strings.Split path strings.slash = seg0 :: fileName :: segs →
  downloadChart w d name version s = Returns (p, None) s1 →
  p = ChartsDir ++ "/" ++ repoName ++ "-" ++ Digest cv ++ "-" ++ fileName
  ∧ ∃ s2,
      downloadChart w d name version s1 = Returns (p, None) s2
      ∧ fs s2 = fs s1
      ∧ calls s2
        = (calls s1 ++
           [MetadataGetChart (strings.ToLower chart ++ "." ++ repoName) version
              (ns d) (incfg d)])%list.
Proof.
  intros Hname Hparse Hdir Hrepo Hchart Hurls Hsplit Hfirst.
  set (filePath := ChartsDir ++ "/" ++ repoName ++ "-" ++ Digest cv ++ "-" ++ fileName).
  destruct (downloadChart_resolved w d name version s repoName chart entry cv path more
              seg0 fileName segs Hname Hparse Hdir Hrepo Hchart Hurls Hsplit)
    as (sA & l & Hrun & _ & _ & _ & HcacheA & _ & _ & HdirA).
  fold filePath in Hrun. rewrite Hrun in Hfirst. clear Hrun.
  destruct (os_Stat_returns w filePath sA) as (err & Hstat & _).
  rewrite (bind_returns _ _ _ _ _ Hstat) in Hfirst.
  assert (p = filePath ∧ repoCache s1 !! repoName = Some entry
          ∧ stat_finds w s1 ChartsDir ∧ stat_finds w s1 filePath)
    as (-> & Hcache1 & Hdir1 & Hfile1).
  { destruct (os_IsNotExist err) eqn:Enot; simpl in Hfirst.
    - unfold mbind, Go_bind in Hfirst.
      destruct (downloadFileFromEntry w entry path filePath sA) as [[e|] sB|sB] eqn:Hfetch;
        try done.
      injection Hfirst as <- <-.
      apply downloadFileFromEntry_done in Hfetch as ([body Hfs] & Hcache & _).
      split; [done|]. split; [by rewrite Hcache|]. split.
      + destruct HdirA as [?|[n Hn]]; [by left|]. right. rewrite Hfs.
        rewrite lookup_insert_ne by apply destination_not_ChartsDir. by eexists.
      + right. rewrite Hfs, lookup_insert_eq. by eexists.
    - injection Hfirst as <- <-. repeat split; try done.
      apply os_Stat_finds. eauto. }
  split; [done|].
  destruct (downloadChart_resolved w d name version s1 repoName chart entry cv path more
              seg0 fileName segs Hname Hparse (or_introl Hdir1) (or_introl Hcache1)
              Hchart Hurls Hsplit)
    as (sC & l' & Hrun & HcallsC & _ & Hhit & _ & _ & HfsC & _).
  fold filePath in Hrun. rewrite Hrun. rewrite (Hhit Hcache1) in HcallsC.
  specialize (HfsC Hdir1).
  apply (stat_finds_fs w filePath s1 sC HfsC) in Hfile1.
  apply os_Stat_finds in Hfile1 as (err' & Hstat' & Hfound).
  step Hstat'. rewrite Hfound. simpl.
  exists sC. by repeat split.
Qed.

Lemma downloadChart_twice_witness :
  ∃ s1 s2,
    downloadChart Sample.world Sample.d "stable/nginx" "1.2.3" Sample.cold
      = Returns ("/tmp/helm-charts/stable-abc-nginx-1.2.3.tgz", None) s1
    ∧ downloadChart Sample.world Sample.d "stable/nginx" "1.2.3" s1
      = Returns ("/tmp/helm-charts/stable-abc-nginx-1.2.3.tgz", None) s2
    ∧ fs s2 = fs s1.
Proof.
  eexists (final (downloadChart Sample.world Sample.d "stable/nginx" "1.2.3" Sample.cold)).
  assert (downloadChart Sample.world Sample.d "stable/nginx" "1.2.3" Sample.cold
          = Returns ("/tmp/helm-charts/stable-abc-nginx-1.2.3.tgz", None)
              (final (downloadChart Sample.world Sample.d "stable/nginx" "1.2.3"
                        Sample.cold))) as Hfirst by (vm_compute; reflexivity).
  destruct (downloadChart_twice Sample.world Sample.d "stable/nginx" "1.2.3" Sample.cold _ _
              "stable" "nginx"
              {| URL := "https://charts.example.com"; Username := ""; Password := "" |}
              {| URLs := ["charts/nginx-1.2.3.tgz"]; Digest := "abc" |}
              "charts/nginx-1.2.3.tgz" "charts" "nginx-1.2.3.tgz" [] []
              eq_refl ltac:(discriminate) (or_intror eq_refl)
              (or_intror (conj eq_refl eq_refl)) eq_refl eq_refl eq_refl Hfirst)
    as (_ & s2 & Hsecond & Hfs & _).
  exists s2. split; [exact Hfirst|]. split; [exact Hsecond | exact Hfs].
Defined.

(** ** A first download *)

Lemma os_Stat_missing (w : World) p s :
  os_stat_fault w p = None → fs s !! p = None →
  ∃ err, os_Stat w p s = Returns err s ∧ os_IsNotExist err = true.
Proof.
  intros Hfault Hlook. unfold os_Stat, gets, mbind, mret, Go_bind, Go_ret.
  rewrite Hfault, Hlook. by eexists.
Qed.

(** The flow on a disk without the destination, up to the write. *)
Lemma downloadChart_transfers (w : World) (d : Downloader) (name version : string)
    (s : State) (repoName chart : string) (entry : repo_Entry) (cv : ChartVersion)
    (path seg0 fileName : string) (more segs : list string)
    (resp : Response) (body : list Byte.byte) :
  getRepoAndChart name = (repoName, chart) →
  (repoName, chart) ≠ ("", "") →
  stat_finds w s ChartsDir ∨ os_mkdir_fault w ChartsDir = None →
  repoCache s !! repoName = Some entry
  ∨ (repoCache s !! repoName = None
     ∧ chartrepo_GetChartRepo w repoName (ns d) (incfg d) = inr entry) →
  chartrepo_GetChart w (strings.ToLower chart ++ "." ++ repoName) version
    (ns d) (incfg d) = inr cv →
  URLs cv = path :: more →
  strings.Split path strings.slash = seg0 :: fileName :: segs →
  let filePath := ChartsDir ++ "/" ++ repoName ++ "-" ++ Digest cv ++ "-" ++ fileName in
  let url := URL entry ++ "/" ++ path in
  let req := request_for url (Username entry) (Password entry) in
  os_stat_fault w filePath = None → fs s !! filePath = None →
  strings.HasSuffix (URL entry) "/" = false →
  strings.HasPrefix path "http://" || strings.HasPrefix path "https://" = false →
  http_NewRequest_err w "GET" url = None →
  http_RoundTrip w req = inr resp →
  StatusCode resp = 200 → Body resp = inr body →
  ∃ sA l,
    downloadChart w d name version s
    = match os_write_fault w filePath with
      | Some (e, None) => Returns ("", Some e) (record (HTTPDo req) sA)
      | Some (e, Some n) =>
          Returns ("", Some e)
            (set_fs (insert filePath (File (take n body))) (record (HTTPDo req) sA))
      | None =>
          Returns (filePath, None)
            (set_fs (insert filePath (File body)) (record (HTTPDo req) sA))
      end
    ∧ calls sA
      = (calls s ++ l ++
         [MetadataGetChart (strings.ToLower chart ++ "." ++ repoName) version
            (ns d) (incfg d)])%list
    ∧ (l = [] ∨ l = [MetadataGetChartRepo repoName (ns d) (incfg d)])
    ∧ repoCache sA !! repoName = Some entry
    ∧ stat_finds w sA ChartsDir.
Proof.
  intros Hname Hparse Hdir Hrepo Hchart Hurls Hsplit filePath url req
    Hnofault Hnofile Hbase Hrelative Hreq Hresp Hcode Hbody.
  destruct (downloadChart_resolved w d name version s repoName chart entry cv path more
              seg0 fileName segs Hname Hparse Hdir Hrepo Hchart Hurls Hsplit)
    as (sA & l & Hrun & HcallsA & Hl & _ & HcacheA & HfsA & _ & HdirA).
  fold filePath in Hrun. exists sA, l. split; [|done].
  rewrite Hrun. clear Hrun.
  assert (fs sA !! filePath = None) as HnofileA.
  { rewrite HfsA; [done | apply destination_not_ChartsDir]. }
  destruct (os_Stat_missing w filePath sA Hnofault HnofileA) as (err & Hstat & Hmissing).
  step Hstat. rewrite Hmissing. simpl.
  unfold mbind, Go_bind, downloadFileFromEntry. rewrite Hbase, Hrelative.
  fold url. rewrite (downloadFile_response w url _ _ filePath sA Hreq). simpl.
  fold req. rewrite Hresp, Hcode, Hbody. simpl.
  unfold ioutil_WriteFile, gets, modify, mbind, mret, Go_bind, Go_ret. simpl.
  rewrite HnofileA.
  by destruct (os_write_fault w filePath) as [[e [n|]]|].
Qed.

(** X11.  A first download.  On a disk without the destination, with a
    repository whose URL has no trailing slash and a relative chart
    path, the chart is fetched from the URL joined to the path by one
    [/], with the credentials of the repository entry; on a 200 answer
    the body is stored at the destination, made of the repository name,
    the digest and the second segment of the path, and that path is
    returned.  The calls are the lookups followed by this one GET. *)
Theorem downloadChart_fetches (w : World) (d : Downloader) (name version : string)
    (s : State) (repoName chart : string) (entry : repo_Entry) (cv : ChartVersion)
    (path seg0 fileName : string) (more segs : list string)
    (resp : Response) (body : list Byte.byte) :
  getRepoAndChart name = (repoName, chart) →
  (repoName, chart) ≠ ("", "") →
  stat_finds w s ChartsDir ∨ os_mkdir_fault w ChartsDir = None →
  repoCache s !! repoName = Some entry
  ∨ (repoCache s !! repoName = None
     ∧ chartrepo_GetChartRepo w repoName (ns d) (incfg d) = inr entry) →
  chartrepo_GetChart w (strings.ToLower chart ++ "." ++ repoName) version
    (ns d) (incfg d) = inr cv →
  URLs cv = path :: more →
  strings.Split path strings.slash = seg0 :: fileName :: segs →
  let filePath := ChartsDir ++ "/" ++ repoName ++ "-" ++ Digest cv ++ "-" ++ fileName in
  let url := URL entry ++ "/" ++ path in
  let req := request_for url (Username entry) (Password entry) in
  os_stat_fault w filePath = None → fs s !! filePath = None →
  strings.HasSuffix (URL entry) "/" = false →
  strings.HasPrefix path "http://" || strings.HasPrefix path "https://" = false →
  http_NewRequest_err w "GET" url = None →
  http_RoundTrip w req = inr resp →
  StatusCode resp = 200 → Body resp = inr body →
  os_write_fault w filePath = None →
  ∃ s' l,
    downloadChart w d name version s = Returns (filePath, None) s'
    ∧ fs s' !! filePath = Some (File body)
    ∧ calls s'
      = (calls s ++ l ++
         [MetadataGetChart (strings.ToLower chart ++ "." ++ repoName) version
            (ns d) (incfg d);
          HTTPDo req])%list
    ∧ (l = [] ∨ l = [MetadataGetChartRepo repoName (ns d) (incfg d)]).
Proof.
  intros Hname Hparse Hdir Hrepo Hchart Hurls Hsplit filePath url req
    Hnofault Hnofile Hbase Hrelative Hreq Hresp Hcode Hbody Hwrite.
  destruct (downloadChart_transfers w d name version s repoName chart entry cv path
              seg0 fileName more segs resp body Hname Hparse Hdir Hrepo Hchart Hurls
              Hsplit Hnofault Hnofile Hbase Hrelative Hreq Hresp Hcode Hbody)
    as (sA & l & Hrun & HcallsA & Hl & _).
  fold filePath url req in Hrun. rewrite Hwrite in Hrun.
  eexists _, l. split; [exact Hrun|]. simpl.
  split; [apply lookup_insert_eq|]. split; [|done].
  rewrite HcallsA. by rewrite <- !app_assoc.
Qed.

Lemma downloadChart_fetches_witness :
  ∃ s', downloadChart Sample.world Sample.d "stable/nginx" "1.2.3" Sample.cold
        = Returns ("/tmp/helm-charts/stable-abc-nginx-1.2.3.tgz", None) s'
        ∧ fs s' !! "/tmp/helm-charts/stable-abc-nginx-1.2.3.tgz"
          = Some (File [Byte.x1f; Byte.x8b])
        ∧ HTTPDo (request_for "https://charts.example.com/charts/nginx-1.2.3.tgz" "" "")
            ∈ calls s'.
Proof.
  destruct (downloadChart_fetches Sample.world Sample.d "stable/nginx" "1.2.3" Sample.cold
              "stable" "nginx"
              {| URL := "https://charts.example.com"; Username := ""; Password := "" |}
              {| URLs := ["charts/nginx-1.2.3.tgz"]; Digest := "abc" |}
              "charts/nginx-1.2.3.tgz" "charts" "nginx-1.2.3.tgz" [] []
              {| StatusCode := 200; Status := "200 OK"; Body := inr [Byte.x1f; Byte.x8b] |}
              [Byte.x1f; Byte.x8b]
              eq_refl ltac:(discriminate) (or_intror eq_refl)
              (or_intror (conj eq_refl eq_refl)) eq_refl eq_refl eq_refl
              eq_refl eq_refl eq_refl eq_refl eq_refl eq_refl eq_refl eq_refl eq_refl)
    as (s' & l & Hrun & Hfile & Hcalls & _).
  exists s'. split; [exact Hrun|]. split; [exact Hfile|].
  rewrite Hcalls. rewrite !elem_of_app. right. right.
  apply elem_of_cons. right. apply list_elem_of_singleton. reflexivity.
Defined.

(** X12.  A write that fails half way poisons the cache.  The failed
    call returns the error of the write and leaves the first bytes of
    the body at the destination; the next call finds a file there,
    returns its path without an error and fetches nothing. *)
Theorem downloadChart_serves_truncated (w : World) (d : Downloader)
    (name version : string)
    (s : State) (repoName chart : string) (entry : repo_Entry) (cv : ChartVersion)
    (path seg0 fileName : string) (more segs : list string)
    (resp : Response) (body : list Byte.byte) (e : error) (n : nat) :
  getRepoAndChart name = (repoName, chart) →
  (repoName, chart) ≠ ("", "") →
  stat_finds w s ChartsDir ∨ os_mkdir_fault w ChartsDir = None →
  repoCache s !! repoName = Some entry
  ∨ (repoCache s !! repoName = None
     ∧ chartrepo_GetChartRepo w repoName (ns d) (incfg d) = inr entry) →
  chartrepo_GetChart w (strings.ToLower chart ++ "." ++ repoName) version
    (ns d) (incfg d) = inr cv →
  URLs cv = path :: more →
  strings.Split path strings.slash = seg0 :: fileName :: segs →
  let filePath := ChartsDir ++ "/" ++ repoName ++ "-" ++ Digest cv ++ "-" ++ fileName in
  let url := URL entry ++ "/" ++ path in
  let req := request_for url (Username entry) (Password entry) in
  os_stat_fault w filePath = None → fs s !! filePath = None →
  strings.HasSuffix (URL entry) "/" = false →
  strings.HasPrefix path "http://" || strings.HasPrefix path "https://" = false →
  http_NewRequest_err w "GET" url = None →
  http_RoundTrip w req = inr resp →
  StatusCode resp = 200 → Body resp = inr body →
  os_write_fault w filePath = Some (e, Some n) →
  ∃ s1 s2,
    downloadChart w d name version s = Returns ("", Some e) s1
    ∧ fs s1 !! filePath = Some (File (take n body))
    ∧ downloadChart w d name version s1 = Returns (filePath, None) s2
    ∧ fs s2 = fs s1
    ∧ calls s2
      = (calls s1 ++
         [MetadataGetChart (strings.ToLower chart ++ "." ++ repoName) version
            (ns d) (incfg d)])%list.
Proof.
  intros Hname Hparse Hdir Hrepo Hchart Hurls Hsplit filePath url req
    Hnofault Hnofile Hbase Hrelative Hreq Hresp Hcode Hbody Hwrite.
  destruct (downloadChart_transfers w d name version s repoName chart entry cv path
              seg0 fileName more segs resp body Hname Hparse Hdir Hrepo Hchart Hurls
              Hsplit Hnofault Hnofile Hbase Hrelative Hreq Hresp Hcode Hbody)
    as (sA & l & Hrun & _ & _ & HcacheA & HdirA).
  fold filePath url req in Hrun. rewrite Hwrite in Hrun.
  set (s1 := set_fs (insert filePath (File (take n body))) (record (HTTPDo req) sA)) in *.
  assert (fs s1 !! filePath = Some (File (take n body))) as Hfile1
    by apply lookup_insert_eq.
  assert (stat_finds w s1 ChartsDir) as Hdir1.
  { destruct HdirA as [?|[m Hm]]; [by left|]. right. simpl.
    rewrite lookup_insert_ne by apply destination_not_ChartsDir. by eexists. }
  destruct (downloadChart_resolved w d name version s1 repoName chart entry cv path more
              seg0 fileName segs Hname Hparse (or_introl Hdir1) (or_introl HcacheA)
              Hchart Hurls Hsplit)
    as (sC & l' & Hrun2 & HcallsC & _ & Hhit & _ & _ & HfsC & _).
  fold filePath in Hrun2. rewrite (Hhit HcacheA) in HcallsC. specialize (HfsC Hdir1).
  assert (stat_finds w sC filePath) as Hfound.
  { right. rewrite HfsC, Hfile1. by eexists. }
  apply os_Stat_finds in Hfound as (err & Hstat & Hnot).
  exists s1, sC. split; [exact Hrun|]. split; [exact Hfile1|].
  split; [|by split].
  rewrite Hrun2. step Hstat. by rewrite Hnot.
Qed.

Lemma downloadChart_serves_truncated_witness :
  ∃ s1 s2,
    downloadChart Sample.full_disk Sample.d "stable/nginx" "1.2.3" Sample.cold
      = Returns ("", Some (PathError false "no space left on device")) s1
    ∧ fs s1 !! "/tmp/helm-charts/stable-abc-nginx-1.2.3.tgz" = Some (File [Byte.x1f])
    ∧ downloadChart Sample.full_disk Sample.d "stable/nginx" "1.2.3" s1
      = Returns ("/tmp/helm-charts/stable-abc-nginx-1.2.3.tgz", None) s2.
Proof.
  destruct (downloadChart_serves_truncated Sample.full_disk Sample.d "stable/nginx" "1.2.3"
              Sample.cold "stable" "nginx"
              {| URL := "https://charts.example.com"; Username := ""; Password := "" |}
              {| URLs := ["charts/nginx-1.2.3.tgz"]; Digest := "abc" |}
              "charts/nginx-1.2.3.tgz" "charts" "nginx-1.2.3.tgz" [] []
              {| StatusCode := 200; Status := "200 OK"; Body := inr [Byte.x1f; Byte.x8b] |}
              [Byte.x1f; Byte.x8b] (PathError false "no space left on device") 1%nat
              eq_refl ltac:(discriminate) (or_intror eq_refl)
              (or_intror (conj eq_refl eq_refl)) eq_refl eq_refl eq_refl
              eq_refl eq_refl eq_refl eq_refl eq_refl eq_refl eq_refl eq_refl eq_refl)
    as (s1 & s2 & Hfirst & Hfile & Hsecond & _).
  exists s1, s2. split; [exact Hfirst|]. split; [exact Hfile | exact Hsecond].
Defined.

(** ** The URL that is fetched *)

Lemma string_append_assoc (a b c : string) : (a ++ b) ++ c = a ++ b ++ c.
Proof.
  induction a as [|x a IH]; [done|].
  change (String x ((a ++ b) ++ c) = String x (a ++ b ++ c)). by rewrite IH.
Qed.

Lemma HasSuffix_slash (base : string) : strings.HasSuffix (base ++ "/") "/" = true.
Proof.
  unfold strings.HasSuffix. rewrite rev_append.
  change (strings.rev "/") with "/".
  change ("/" ++ strings.rev base) with (String "/"%char (strings.rev base)).
  by destruct (strings.rev base).
Qed.

(** X14.  [downloadFile] changes the disk only when the answer is a 200
    with a body that can be read, and then at the destination only: the
    file there holds the body, or the first bytes of it when the write
    failed half way. *)
Theorem downloadFile_disk (w : World) (url username password filepath : string)
    (s : State) :
  http_NewRequest_err w "GET" url = None →
  fs (final (downloadFile w url username password filepath s)) ≠ fs s →
  ∃ resp body written,
    http_RoundTrip w (request_for url username password) = inr resp
    ∧ StatusCode resp = 200
    ∧ Body resp = inr body
    ∧ fs (final (downloadFile w url username password filepath s))
      = <[filepath := File written]> (fs s)
    ∧ (written = body ∨ ∃ n, written = take n body).
Proof.
  intros Hreq. rewrite (downloadFile_response w url username password filepath s Hreq).
  simpl. destruct (http_RoundTrip w _) as [err|resp]; [done|].
  destruct (StatusCode resp =? 200) eqn:Hcode; [|done].
  apply Z.eqb_eq in Hcode. simpl.
  destruct (Body resp) as [err|body] eqn:Hbody; [done|].
  unfold ioutil_WriteFile, gets, modify, mbind, mret, Go_bind, Go_ret. simpl.
  destruct (fs s !! filepath) as [[|]|];
    try done; destruct (os_write_fault w filepath) as [[e [n|]]|]; try done;
    intros _; eexists resp, body, _; repeat split; eauto.
Qed.

Lemma downloadFile_disk_witness :
  ∃ written,
    fs (final (downloadFile Sample.full_disk
                 "https://files.example.com/pkg/app-2.0.tgz" "" ""
                 "/tmp/helm-charts/web-app-2.0.tgz" Sample.cold))
    = <["/tmp/helm-charts/web-app-2.0.tgz" := File written]> (fs Sample.cold)
    ∧ (written = [Byte.x1f; Byte.x8b] ∨ ∃ n, written = take n [Byte.x1f; Byte.x8b]).
Proof.
  destruct (downloadFile_disk Sample.full_disk
              "https://files.example.com/pkg/app-2.0.tgz" "" ""
              "/tmp/helm-charts/web-app-2.0.tgz" Sample.cold eq_refl)
    as (resp & body & written & Hresp & _ & Hbody & Hfs & Hwritten).
  - vm_compute. discriminate.
  - exists written. split; [exact Hfs|].
    vm_compute in Hresp. injection Hresp as <-. simpl in Hbody.
    injection Hbody as <-. exact Hwritten.
Defined.

(** ** The credential pair, whole or absent *)

Lemma credentials_all_or_nothing (sec : Secret) (name namespace : string) :
  match credentials sec name namespace with
  | (u, p, None) => u ≠ "" ∧ p ≠ ""
  | (u, p, Some _) => u = "" ∧ p = ""
  end.
Proof.
  unfold credentials.
  destruct (String.eqb_spec
              match Data sec !! "username" with
              | Some u => strings.Trim u strings.newline
              | None => ""
              end ""); [done|].
  by destruct (String.eqb_spec
                 match Data sec !! "password" with
                 | Some p => strings.Trim p strings.newline
                 | None => ""
                 end "").
Qed.

(** X15.  [fetchAuthFromSecret] always returns, and what it returns is
    all or nothing: two non-empty strings without an error, or an error
    with two empty strings.  It reads the secret store at most twice,
    and not at all when the first client cannot be built. *)
Theorem fetchAuthFromSecret_all_or_nothing (w : World) (d : Downloader)
    (name namespace : string) (s : State) :
  ∃ u p e s' l,
    fetchAuthFromSecret w d name namespace s = Returns (u, p, e) s'
    ∧ match e with
      | None => u ≠ "" ∧ p ≠ ""
      | Some _ => u = "" ∧ p = ""
      end
    ∧ calls s' = (calls s ++ l)%list
    ∧ (length l ≤ 2)%nat
    ∧ (kubernetes_NewForConfig w (incfg d) = None ∨ l = []).
Proof.
  unfold fetchAuthFromSecret.
  destruct (kubernetes_NewForConfig w (incfg d)) as [err|].
  { eexists _, _, _, _, []. rewrite app_nil_r. repeat split; simpl; [lia | by right]. }
  rewrite call_bind.
  destruct (secrets_Get w (incfg d) namespace name) as [err|sec].
  - destruct (apierrors_IsNotFound err).
    + destruct (kubernetes_NewForConfig w (cfg d)) as [errI|].
      * eexists _, _, _, _, [_]. repeat split; simpl; try done; try lia; by left.
      * rewrite call_bind.
        destruct (secrets_Get w (cfg d) namespace name) as [err2|sec].
        -- eexists _, _, _, _, [_; _]. repeat split; simpl; try done;
             [by rewrite <- app_assoc | by left].
        -- pose proof (credentials_all_or_nothing sec name namespace) as H.
           destruct (credentials sec name namespace) as [[u p] e].
           eexists _, _, _, _, [_; _]. repeat split; simpl; try done;
             [by rewrite <- app_assoc | by left].
    + eexists _, _, _, _, [_]. repeat split; simpl; try done; try lia; by left.
  - pose proof (credentials_all_or_nothing sec name namespace) as H.
    destruct (credentials sec name namespace) as [[u p] e].
    eexists _, _, _, _, [_]. repeat split; simpl; try done; try lia; by left.
Qed.

(** ** The OCI flow, to the end *)

(** X16.  With the reference parsed, [pullOCIChart] pulls with the
    credentials it resolved (the empty pair without a secret reference)
    and loads the chart only after a pull that succeeded.  What it
    returns is a chart without an error or an error without a chart. *)
Theorem pullOCIChart_pulls (w : World) (d : Downloader) (hr : HelmRequest) (s s1 : State)
    (src : ChartSource) (oci : ChartSourceOCI) (ref : Reference) (u p : string) :
  Spec_Source hr = Some src → OCI src = Some oci →
  registry_NewClient w = None →
  (OCI_SecretRef oci = "" ∧ u = "" ∧ p = "" ∧ s1 = s)
  ∨ (OCI_SecretRef oci ≠ ""
     ∧ fetchAuthFromSecret w d (OCI_SecretRef oci) (GetNamespace hr) s
       = Returns (u, p, None) s1) →
  registry_ParseReference w (OCI_Repo oci) = inr ref →
  ∃ r s',
    pullOCIChart w d hr s = Returns r s'
    ∧ fs s' = fs s1
    ∧ match registry_PullChart w ref u p with
      | Some err =>
          r = (None, Some err)
          ∧ calls s' = (calls s1 ++ [RegistryPull ref u p])%list
      | None =>
          calls s' = (calls s1 ++ [RegistryPull ref u p; RegistryLoad ref])%list
          ∧ match registry_LoadChart w ref with
            | inl err => r = (None, Some err)
            | inr cht => r = (Some cht, None)
            end
      end.
Proof.
  intros Hsrc Hoci Hclient Hcreds Hparse.
  unfold pullOCIChart. rewrite Hclient, Hsrc. simpl. rewrite Hoci.
  assert ((if nonempty (OCI_SecretRef oci)
           then fetchAuthFromSecret w d (OCI_SecretRef oci) (GetNamespace hr)
           else mret ("", "", None)) s = Returns (u, p, None) s1) as Hrun.
  { destruct Hcreds as [(Hnone & -> & -> & ->)|[Hsome Hrun]].
    - apply nonempty_false in Hnone. by rewrite Hnone.
    - apply nonempty_true in Hsome. by rewrite Hsome. }
  step Hrun. rewrite Hparse, call_bind.
  destruct (registry_PullChart w ref u p) as [err|].
  - by eexists _, _.
  - rewrite call_bind.
    destruct (registry_LoadChart w ref) as [err|cht];
      (eexists _, _; split; [done|]; split; [done|]; split; [|done]);
      simpl; by rewrite <- app_assoc.
Qed.

Lemma pullOCIChart_pulls_witness :
  ∃ s', pullOCIChart Sample.world Sample.d
          (Sample.oci_request "registry.example.com/charts/app:1.0" "regcred") Sample.cold
        = Returns (Some {| ChartName := "registry.example.com/charts/app" |}, None) s'
        ∧ RegistryPull {| RefRepo := "registry.example.com/charts/app"; RefTag := "1.0" |}
            "bob" "pw" ∈ calls s'.
Proof.
  destruct (pullOCIChart_pulls Sample.world Sample.d
              (Sample.oci_request "registry.example.com/charts/app:1.0" "regcred")
              Sample.cold
              (final (fetchAuthFromSecret Sample.world Sample.d "regcred" "default"
                        Sample.cold))
              _ _ {| RefRepo := "registry.example.com/charts/app"; RefTag := "1.0" |}
              "bob" "pw" eq_refl eq_refl eq_refl)
    as (r & s' & Hrun & _ & Hcalls & Hr).
  - right. split; [discriminate | vm_compute; reflexivity].
  - reflexivity.
  - simpl in Hr. subst r. exists s'. split; [exact Hrun|].
    rewrite Hcalls. apply elem_of_app. right. by left.
Defined.

(** ** A chart version without a URL *)

(** X17.  A chart version that lists no URL makes [downloadChart] panic
    on [cv.URLs[0]], once the repository and the chart are resolved;
    nothing has been fetched and the cache directory is the only path
    that can be new. *)
Theorem downloadChart_no_url (w : World) (d : Downloader) (name version : string)
    (s : State) (repoName chart : string) (entry : repo_Entry) (cv : ChartVersion) :
  getRepoAndChart name = (repoName, chart) →
  (repoName, chart) ≠ ("", "") →
  is_Some (fs s !! ChartsDir) ∨ os_mkdir_fault w ChartsDir = None →
  repoCache s !! repoName = Some entry
  ∨ (repoCache s !! repoName = None
     ∧ chartrepo_GetChartRepo w repoName (ns d) (incfg d) = inr entry) →
  chartrepo_GetChart w (strings.ToLower chart ++ "." ++ repoName) version
    (ns d) (incfg d) = inr cv →
  URLs cv = [] →
  ∃ s',
    downloadChart w d name version s = Panics s'
    ∧ (∀ q, q ≠ ChartsDir → fs s' !! q = fs s !! q)
    ∧ (∀ req, HTTPDo req ∈ calls s' → HTTPDo req ∈ calls s).
Proof.
  intros Hname Hparse Hdir Hrepo Hchart Hurls.
  unfold downloadChart. rewrite Hname.
  destruct (String.eqb repoName "" && String.eqb chart "") eqn:E.
  { apply andb_prop in E as [->%String.eqb_eq ->%String.eqb_eq]. done. }
  destruct (cache_dir_step_elsewhere w s Hdir) as (s0 & -> & Hcache & Hcalls0 & Hfs0).
  rewrite <- Hcache in Hrepo.
  destruct (getRepoInfo_resolves w d repoName (ns d) s0 entry Hrepo)
    as (s1 & l & Hinfo & Hfs1 & Hcalls1 & Hl).
  step Hinfo. rewrite call_bind, Hchart, Hurls.
  eexists. split; [done|]. simpl. split.
  - intros q Hq. rewrite Hfs1. by apply Hfs0.
  - intros req. rewrite Hcalls1, Hcalls0.
    intros [H|H%list_elem_of_singleton]%elem_of_app; [|done].
    apply elem_of_app in H as [H|H]; [done|].
    destruct Hl as [-> | ->]; [by apply elem_of_nil in H|].
    by apply list_elem_of_singleton in H.
Qed.

Lemma downloadChart_no_url_witness :
  ∃ s', downloadChart Sample.no_url_store Sample.d "stable/nginx" "1.2.3" Sample.cold
        = Panics s'.
Proof.
  destruct (downloadChart_no_url Sample.no_url_store Sample.d "stable/nginx" "1.2.3"
              Sample.cold "stable" "nginx"
              {| URL := "https://charts.example.com"; Username := ""; Password := "" |}
              {| URLs := []; Digest := "abc" |}
              eq_refl ltac:(discriminate) (or_intror eq_refl)
              (or_intror (conj eq_refl eq_refl)) eq_refl eq_refl)
    as (s' & Hrun & _).
  exists s'. exact Hrun.
Defined.

(** ** Failures of the metadata store *)

(** X18.  What the metadata store refuses is returned as it is.  When
    the repository is unknown the error of the lookup comes back,
    nothing is cached and the chart is not looked up; when the chart is
    unknown the error of that lookup comes back.  In both cases nothing
    is fetched. *)
Theorem downloadChart_store_errors (w : World) (d : Downloader) (name version : string)
    (s : State) (repoName chart : string) (err : error) :
  getRepoAndChart name = (repoName, chart) →
  (repoName, chart) ≠ ("", "") →
  is_Some (fs s !! ChartsDir) ∨ os_mkdir_fault w ChartsDir = None →
  (repoCache s !! repoName = None →
   chartrepo_GetChartRepo w repoName (ns d) (incfg d) = inl err →
   ∃ s',
     downloadChart w d name version s = Returns ("", Some err) s'
     ∧ repoCache s' = repoCache s
     ∧ calls s' = (calls s ++ [MetadataGetChartRepo repoName (ns d) (incfg d)])%list)
  ∧ (∀ entry,
       repoCache s !! repoName = Some entry
       ∨ (repoCache s !! repoName = None
          ∧ chartrepo_GetChartRepo w repoName (ns d) (incfg d) = inr entry) →
       chartrepo_GetChart w (strings.ToLower chart ++ "." ++ repoName) version
         (ns d) (incfg d) = inl err →
       ∃ s' l,
         downloadChart w d name version s = Returns ("", Some err) s'
         ∧ repoCache s' !! repoName = Some entry
         ∧ calls s'
           = (calls s ++ l ++
              [MetadataGetChart (strings.ToLower chart ++ "." ++ repoName) version
                 (ns d) (incfg d)])%list
         ∧ (l = [] ∨ l = [MetadataGetChartRepo repoName (ns d) (incfg d)])).
Proof.
  intros Hname Hparse Hdir.
  assert (String.eqb repoName "" && String.eqb chart "" = false) as E.
  { destruct (String.eqb repoName "" && String.eqb chart "") eqn:E; [|done].
    apply andb_prop in E as [->%String.eqb_eq ->%String.eqb_eq]. done. }
  destruct (cache_dir_step_elsewhere w s Hdir) as (s0 & Hstep & Hcache & Hcalls0 & _).
  split.
  - intros Hmiss Hget. unfold downloadChart. rewrite Hname, E, Hstep.
    rewrite <- Hcache in Hmiss.
    unfold mbind at 1, Go_bind at 1.
    rewrite (getRepoInfo_miss w d repoName (ns d) s0 Hmiss), Hget. simpl.
    eexists. split; [done|]. simpl. split; congruence.
  - intros entry Hrepo Hchart. unfold downloadChart. rewrite Hname, E, Hstep.
    rewrite <- Hcache in Hrepo.
    destruct (getRepoInfo_resolves w d repoName (ns d) s0 entry Hrepo)
      as (s1 & l & Hinfo & _ & Hcalls1 & Hl).
    step Hinfo. rewrite call_bind, Hchart.
    eexists _, l. split; [done|]. simpl. split; [|split; [|done]].
    + destruct Hrepo as [Hhit|[Hmiss Hget]].
      * rewrite (getRepoInfo_hit w d repoName (ns d) s0 entry Hhit) in Hinfo.
        by injection Hinfo as <-.
      * rewrite (getRepoInfo_miss w d repoName (ns d) s0 Hmiss), Hget in Hinfo.
        injection Hinfo as <-. simpl. apply lookup_insert_eq.
    + by rewrite Hcalls1, Hcalls0, <- app_assoc.
Qed.

Lemma downloadChart_store_errors_witness :
  ∃ s', downloadChart Sample.world Sample.d "incubator/nginx" "1.2.3" Sample.cold
        = Returns ("", Some (Sample.not_found "chartrepo")) s'
        ∧ repoCache s' = ∅.
Proof.
  destruct (downloadChart_store_errors Sample.world Sample.d "incubator/nginx" "1.2.3"
              Sample.cold "incubator" "nginx" (Sample.not_found "chartrepo")
              eq_refl ltac:(discriminate) (or_intror eq_refl)) as [H _].
  destruct (H eq_refl eq_refl) as (s' & Hrun & Hcache & _).
  exists s'. split; [exact Hrun | exact Hcache].
Defined.

(** ** The earlier variant *)

Lemma Replace_append a b old new :
  strings.Replace (a ++ b) old new
  = strings.Replace a old new ++ strings.Replace b old new.
Proof.
  induction a as [|x a IH]; [done|].
  change (strings.Replace (String x (a ++ b)) old new
          = String (if Ascii.eqb x old then new else x)
              (strings.Replace a old new ++ strings.Replace b old new)).
  simpl. by rewrite IH.
Qed.

Lemma Replace_absent s old new :
  strings.Count s old = 0%nat → strings.Replace s old new = s.
Proof.
  induction s as [|x s IH]; simpl; [done|].
  destruct (Ascii.eqb x old); [done|]. intros H. by rewrite IH.
Qed.

(** X19.  The path that the earlier variant checks first does not tell
    charts apart: a hyphen in the version and a hyphen in the chart name
    give the same path, so two different charts of one repository can
    share it. *)
Theorem getChartPath_collides (repo chart x version : string) :
  strings.Count x strings.slash = 0%nat →
  Legacy.getChartPath (repo ++ "/" ++ chart) (x ++ "-" ++ version)
  = Legacy.getChartPath (repo ++ "/" ++ chart ++ "-" ++ x) version.
Proof.
  intros Hx. unfold Legacy.getChartPath.
  rewrite !Replace_append, (Replace_absent x _ _ Hx).
  change (strings.Replace "-" strings.slash "-") with "-".
  by rewrite !string_append_assoc.
Qed.

Lemma getChartPath_collides_witness :
  Legacy.getChartPath "stable/nginx" "ingress-1.0" = "/tmp/helm-charts/stable-nginx-ingress-1.0.tgz"
  ∧ Legacy.getChartPath "stable/nginx-ingress" "1.0"
    = "/tmp/helm-charts/stable-nginx-ingress-1.0.tgz"
  ∧ getRepoAndChart "stable/nginx" ≠ getRepoAndChart "stable/nginx-ingress".
Proof.
  pose proof (getChartPath_collides "stable" "nginx" "ingress" "1.0" eq_refl) as H.
  split; [reflexivity|]. split; [|discriminate].
  exact (eq_trans (eq_sym H) eq_refl).
Defined.

(** X20.  The first look of the earlier variant.  With a version given
    and a file at the path made of the name and the version, the path is
    returned and nothing else happens: no call, no change of state.
    That path is the one a download writes when the file name of the
    chart is its name and version followed by [.tgz]. *)
Theorem Legacy_first_look (w : World)
    (GetChart : string → string → string → rest_Config → error + string)
    (d : Legacy.Downloader) (name version : string) (s : State) (repo chart : string) :
  getRepoAndChart name = (repo, chart) →
  (repo, chart) ≠ ("", "") →
  (version ≠ "" → stat_finds w s (Legacy.getChartPath name version) →
   Legacy.downloadChart w GetChart d name version s
   = Returns (Legacy.getChartPath name version, None) s)
  ∧ ChartsDir ++ "/" ++ repo ++ "-" ++ (chart ++ "-" ++ version ++ ".tgz")
    = Legacy.getChartPath name version.
Proof.
  intros Hname Hparse. split.
  - intros Hversion%nonempty_true Hfound.
    unfold Legacy.downloadChart. rewrite Hname.
    destruct (String.eqb repo "" && String.eqb chart "") eqn:E.
    { apply andb_prop in E as [->%String.eqb_eq ->%String.eqb_eq]. done. }
    rewrite Hversion.
    apply os_Stat_finds in Hfound as (err & Hstat & Hnot).
    unfold mbind at 1, Go_bind at 1. step Hstat. by rewrite Hnot.
  - apply getRepoAndChart_join in Hname as (-> & Hrepo & Hchart); [|done].
    unfold Legacy.getChartPath.
    rewrite !Replace_append, (Replace_absent repo _ _ Hrepo),
      (Replace_absent chart _ _ Hchart).
    change (strings.Replace "/" strings.slash "-") with "-".
    by rewrite !string_append_assoc.
Qed.

Lemma Legacy_first_look_witness :
  Legacy.downloadChart Sample.world Sample.legacy_GetChart Sample.legacy_d
    "stable/abc-nginx" "1.2.3" Sample.warm
  = Returns ("/tmp/helm-charts/stable-abc-nginx-1.2.3.tgz", None) Sample.warm.
Proof.
  destruct (Legacy_first_look Sample.world Sample.legacy_GetChart Sample.legacy_d
              "stable/abc-nginx" "1.2.3" Sample.warm "stable" "abc-nginx"
              eq_refl ltac:(discriminate)) as [H _].
  apply H; [discriminate|]. right. eexists. reflexivity.
Defined.

Lemma spares_Legacy_downloadFile (w : World) entry path filepath :
  spares (eq filepath) (Legacy.downloadFile w entry path filepath).
Proof. unfold Legacy.downloadFile. spares. Qed.

Lemma spares_Legacy_getRepoInfo (w : World) D d name ns :
  spares D (Legacy.getRepoInfo w d name ns).
Proof. unfold Legacy.getRepoInfo. spares. Qed.

(** X21.  The earlier variant, too, leaves every existing file as it
    is: it only writes a destination that [os.Stat] has reported
    missing. *)
Theorem Legacy_downloadChart_keeps (w : World)
    (GetChart : string → string → string → rest_Config → error + string)
    (d : Legacy.Downloader) (name version : string) (s : State) (q : string) :
  is_Some (fs s !! q) →
  fs (final (Legacy.downloadChart w GetChart d name version s)) !! q = fs s !! q.
Proof.
  intros Hq.
  assert (spares nowhere (Legacy.downloadChart w GetChart d name version)) as H.
  { unfold Legacy.downloadChart.
    repeat first
      [ solve [auto with spares]
      | match goal with
        | |- spares _ (Legacy.getRepoInfo _ _ _ _) => apply spares_Legacy_getRepoInfo
        | |- spares _ (Legacy.downloadFile _ _ _ _ ≫= _) =>
            apply spares_bind; [apply spares_Legacy_downloadFile | intros]
        | |- spares nowhere (os_Stat _ _ ≫= λ err, if negb (os_IsNotExist err) then _ else _) =>
            apply spares_unless_exists
        | |- spares _ (_ ≫= _) => apply spares_bind; [|intros]
        end
      | case_match ]. }
  apply H; [done|]. unfold nowhere. tauto.
Qed.

Lemma Legacy_downloadChart_keeps_witness :
  fs (final (Legacy.downloadChart Sample.world Sample.legacy_GetChart Sample.legacy_d
               "stable/nginx" "" Sample.warm))
    !! "/tmp/helm-charts/web-app-2.0.tgz"
  = Some (File Sample.old_archive).
Proof.
  rewrite (Legacy_downloadChart_keeps Sample.world Sample.legacy_GetChart Sample.legacy_d
             "stable/nginx" "" Sample.warm "/tmp/helm-charts/web-app-2.0.tgz").
  - reflexivity.
  - eexists. reflexivity.
Defined.

(** ** An existing destination in the HTTP-source flow *)




(** ** A warm cache, in both flows *)



(** ** Cached archives, kept and replaced *)



(** ** The request that is sent *)

(** X13.  How [downloadFileFromEntry] forms the request.  A chart path
    that starts with [http://] or [https://] is itself the URL fetched,
    whatever the URL of the repository.  Any other chart path is fetched
    from the repository URL followed by the path, with one [/] put
    between them unless the repository URL ends with one, so that a
    repository URL gives the same request with and without one trailing
    [/].  The credentials of the entry go with the request only when
    both are non-empty: an entry that lacks the user name or the
    password is fetched like an anonymous one. *)
Theorem downloadFileFromEntry_endpoint (w : World) (path filepath : string) (s : State) :
  (strings.HasPrefix path "http://" || strings.HasPrefix path "https://" = true →
   ∀ entry,
     downloadFileFromEntry w entry path filepath s
     = downloadFile w path (Username entry) (Password entry) filepath s)
  ∧ (strings.HasPrefix path "http://" || strings.HasPrefix path "https://" = false →
     ∀ entry,
       (strings.HasSuffix (URL entry) "/" = true →
        downloadFileFromEntry w entry path filepath s
        = downloadFile w (URL entry ++ path) (Username entry) (Password entry) filepath s)
       ∧ (strings.HasSuffix (URL entry) "/" = false →
          downloadFileFromEntry w entry path filepath s
          = downloadFile w (URL entry ++ "/" ++ path) (Username entry) (Password entry)
              filepath s
          ∧ downloadFileFromEntry w
              {| URL := URL entry ++ "/";
                 Username := Username entry; Password := Password entry |}
              path filepath s
            = downloadFile w (URL entry ++ "/" ++ path) (Username entry) (Password entry)
                filepath s))
  ∧ (∀ url username password,
       http_NewRequest_err w "GET" url = None →
       ∃ err s',
         downloadFile w url username password filepath s = Returns err s'
         ∧ calls s'
           = (calls s ++
              [HTTPDo {| Method := "GET"; ReqURL := url;
                         BasicAuth := if decide (username ≠ "" ∧ password ≠ "")
                                      then Some (username, password) else None |}])%list)
  ∧ (∀ base username password,
       username = "" ∨ password = "" →
       downloadFileFromEntry w
         {| URL := base; Username := username; Password := password |}
         path filepath s
       = downloadFileFromEntry w
           {| URL := base; Username := ""; Password := "" |}
           path filepath s).
Proof.
  split; [|split; [|split]].
  - intros Habs entry. unfold downloadFileFromEntry. by rewrite Habs.
  - intros Hrel entry. split; [|split].
    + intros Hslash. unfold downloadFileFromEntry. by rewrite Hrel, Hslash.
    + unfold downloadFileFromEntry. by rewrite Hrel, H.
    + unfold downloadFileFromEntry. simpl.
      by rewrite Hrel, HasSuffix_slash, (string_append_assoc (URL entry) "/" path).
  - intros url username password Hreq.
    destruct (downloadFile_calls w url username password filepath s Hreq)
      as (err & s' & Hrun & Hcalls).
    exists err, s'. split; [done|]. rewrite Hcalls. unfold request_for.
    do 3 f_equal.
    destruct (nonempty username) eqn:Hu, (nonempty password) eqn:Hp; simpl;
      case_decide as Hboth; try done.
    + exfalso. apply Hboth. split; by apply nonempty_true.
    + destruct Hboth as [_ Hp']. by apply nonempty_true in Hp'; congruence.
    + destruct Hboth as [Hu' _]. by apply nonempty_true in Hu'; congruence.
    + destruct Hboth as [Hu' _]. by apply nonempty_true in Hu'; congruence.
  - intros base username password H. unfold downloadFileFromEntry, downloadFile. simpl.
    destruct (http_NewRequest w "GET" _) as [req err].
    assert (nonempty username && nonempty password = false) as ->; [|done].
    destruct H as [-> | ->]; [done|]. apply andb_false_r.
Qed.

Lemma downloadFileFromEntry_endpoint_witness :
  downloadFileFromEntry Sample.world
    {| URL := "https://charts.example.com"; Username := ""; Password := "" |}
    "https://mirror.example.com/nginx-1.2.3.tgz" "/tmp/helm-charts/x" Sample.cold
  = downloadFile Sample.world "https://mirror.example.com/nginx-1.2.3.tgz" "" ""
      "/tmp/helm-charts/x" Sample.cold
  ∧ downloadFileFromEntry Sample.world
      {| URL := "https://charts.example.com/"; Username := ""; Password := "" |}
      "charts/nginx-1.2.3.tgz" "/tmp/helm-charts/x" Sample.cold
    = downloadFile Sample.world "https://charts.example.com/charts/nginx-1.2.3.tgz" "" ""
        "/tmp/helm-charts/x" Sample.cold.
Proof.
  destruct (downloadFileFromEntry_endpoint Sample.world
              "https://mirror.example.com/nginx-1.2.3.tgz" "/tmp/helm-charts/x"
              Sample.cold) as (Habs & _).
  destruct (downloadFileFromEntry_endpoint Sample.world
              "charts/nginx-1.2.3.tgz" "/tmp/helm-charts/x" Sample.cold)
    as (_ & Hrel & _).
  split.
  - exact (Habs eq_refl
             {| URL := "https://charts.example.com"; Username := ""; Password := "" |}).
  - exact (proj2 (proj2 (Hrel eq_refl
             {| URL := "https://charts.example.com"; Username := ""; Password := "" |})
             eq_refl)).
Defined.
